(** * gcloud_core.datastore: the resource-id codec

    A shallow embedding of [gcloud_core/datastore/__init__.py]: the codec
    between datastore keys and portable resource ids, the entity lookup
    built on it, and the [Client] singleton wrapper.

    Python values are modelled as follows.
    - [str] is a list of Unicode code points ([N]); [bytes] is a list of
      octets ([N] below 256).
    - An element of a key's flat path is a [Token]: a [str] or an [int].
    - A call either returns a value or raises: [Outcome].  An exception is
      its class together with its message where the module builds one.
    - The module-level cell [Client.ds_client] lives in a [Process] that is
      threaded through the functions that construct [Client()].

    The Python standard library ([str], [int], [bytes.decode], [base64],
    [binascii]) and [google.cloud.datastore] are not part of the package;
    their behaviour is written out here after CPython 3.11 and
    google-cloud-datastore, each definition naming what it stands for.
    Integers convert to and from text without the configurable digit limit
    of recent interpreters.  The legacy helper [get_entity_key_by_keystr]
    rests on the key format of the datastore itself and is left out. *)

From Stdlib Require Import String Ascii List NArith ZArith Lia Bool.
From Stdlib Require Import DecimalN DecimalPos.
Import ListNotations.
Local Open Scope N_scope.

Set Implicit Arguments.

(** ** Text and bytes *)

Definition pystr := list N.
Definition pybytes := list N.

(** A literal of the source, as a [str]. *)
Definition text (s : string) : pystr :=
  map N_of_ascii (list_ascii_of_string s).

Definition SEPARATOR : N := 30.
Definition INTPREFIX : N := 31.

Definition pystr_eqb (a b : pystr) : bool :=
  if list_eq_dec N.eq_dec a b then true else false.

(** ** Exceptions *)

Inductive ExcClass : Type :=
| ValueError
| TypeError
| IndexError
| AttributeError
| UnicodeEncodeError
| UnicodeDecodeError
| binascii_Error
| InvalidKeyException
| InvalidIdException
| EntityExists
| DoesNotExistException
| RuntimeError
| DefaultCredentialsError
| GoogleAPICallError.

Definition ExcClass_eqb (a b : ExcClass) : bool :=
  match a, b with
  | ValueError, ValueError | TypeError, TypeError | IndexError, IndexError
  | AttributeError, AttributeError
  | UnicodeEncodeError, UnicodeEncodeError
  | UnicodeDecodeError, UnicodeDecodeError
  | binascii_Error, binascii_Error
  | InvalidKeyException, InvalidKeyException
  | InvalidIdException, InvalidIdException
  | EntityExists, EntityExists
  | DoesNotExistException, DoesNotExistException
  | RuntimeError, RuntimeError
  | DefaultCredentialsError, DefaultCredentialsError
  | GoogleAPICallError, GoogleAPICallError => true
  | _, _ => false
  end.

(** The direct base class, [None] standing for [Exception] itself.
    [class InvalidKeyException(ValueError)], [class InvalidIdException(ValueError)],
    [class EntityExists(RuntimeError)], [class DoesNotExistException(RuntimeError)];
    [binascii.Error] and the Unicode errors derive from [ValueError]. *)
Definition base_class (c : ExcClass) : option ExcClass :=
  match c with
  | InvalidKeyException | InvalidIdException => Some ValueError
  | binascii_Error | UnicodeEncodeError | UnicodeDecodeError => Some ValueError
  | EntityExists | DoesNotExistException => Some RuntimeError
  | _ => None
  end.

(** [issubclass c d]; the hierarchy above has depth one. *)
Definition issubclass (c d : ExcClass) : bool :=
  ExcClass_eqb c d ||
  match base_class c with
  | Some b => ExcClass_eqb b d
  | None => false
  end.

(** [except (d1, d2, ...)] catches [c]. *)
Definition caught_by (handlers : list ExcClass) (c : ExcClass) : bool :=
  existsb (issubclass c) handlers.

Inductive Outcome (A : Type) : Type :=
| Return (a : A)
| Raise (c : ExcClass) (msg : option pystr).

Arguments Return {A} a.
Arguments Raise {A} c msg.

Definition bind {A B} (o : Outcome A) (k : A -> Outcome B) : Outcome B :=
  match o with
  | Return a => k a
  | Raise c m => Raise c m
  end.

Declare Scope py_scope.
Delimit Scope py_scope with py.
Notation "x <- c ;; k" := (bind c (fun x => k))
  (at level 61, c at next level, right associativity) : py_scope.
Local Open Scope py_scope.

Definition raises {A} (o : Outcome A) (c : ExcClass) : Prop :=
  exists m, o = Raise c m.

Definition returns {A} (o : Outcome A) : Prop :=
  exists a, o = Return a.

(** ** Error templates *)

Definition _kind_err (expected found : pystr) : pystr :=
  text "Expected keystr for kind " ++ expected ++
  text " but found kind " ++ found ++ text " instead.".

Definition _invalid_id_err (resource_id : pystr) : pystr :=
  text "'" ++ resource_id ++ text "' is not a valid resource id.'".

Definition _id_type_err (resource_id : pystr) : pystr :=
  text "Resource Ids must be an instance of str. Received: " ++ resource_id.

(** The right operand of [%]: a tuple supplies one argument per element,
    any other object is the single argument. *)
Inductive FormatOperand : Type :=
| OneObject
| TupleOf (n : nat).

(** [_pair_err % operand].  [_pair_err] holds exactly one [%s]; Python
    raises [TypeError] when the operand is a tuple of any other length
    (``not all arguments converted during string formatting'').  The text
    produced depends on the [repr] of the operand and is not modelled. *)
Definition format_pair_err (operand : FormatOperand) : Outcome (option pystr) :=
  match operand with
  | OneObject | TupleOf 1 => Return None
  | TupleOf _ => Raise TypeError None
  end.

(** ** Python built-ins on [str] *)

(** [sep.join(parts)] for a one-character separator. *)
Fixpoint join (sep : N) (parts : list pystr) : pystr :=
  match parts with
  | [] => []
  | [p] => p
  | p :: rest => p ++ sep :: join sep rest
  end.

(** [s.split(sep)] for a one-character separator: never the empty list. *)
Fixpoint split (sep : N) (s : pystr) : list pystr :=
  match s with
  | [] => [[]]
  | c :: s' =>
      if c =? sep then [] :: split sep s'
      else match split sep s' with
           | [] => [[c]]
           | p :: ps => (c :: p) :: ps
           end
  end.

(** [s.encode('ascii')]. *)
Definition encode_ascii (s : pystr) : Outcome pybytes :=
  if forallb (fun c => c <? 128) s then Return s
  else Raise UnicodeEncodeError None.

(** Decimal digits of a [Decimal.uint], most significant first. *)
Fixpoint uint_chars (d : Decimal.uint) : pystr :=
  match d with
  | Decimal.Nil => []
  | Decimal.D0 l => 48 :: uint_chars l
  | Decimal.D1 l => 49 :: uint_chars l
  | Decimal.D2 l => 50 :: uint_chars l
  | Decimal.D3 l => 51 :: uint_chars l
  | Decimal.D4 l => 52 :: uint_chars l
  | Decimal.D5 l => 53 :: uint_chars l
  | Decimal.D6 l => 54 :: uint_chars l
  | Decimal.D7 l => 55 :: uint_chars l
  | Decimal.D8 l => 56 :: uint_chars l
  | Decimal.D9 l => 57 :: uint_chars l
  end.

(** [str(n)] for an [int]: decimal, with a leading [-] when negative.
    (The 4300-digit conversion limit of recent CPython is not modelled.) *)
Definition str_of_int (z : Z) : pystr :=
  match z with
  | Z0 => [48]
  | Zpos p => uint_chars (Pos.to_uint p)
  | Zneg p => 45 :: uint_chars (Pos.to_uint p)
  end.

(** [bytes.decode()]: strict UTF-8, as CPython decodes it. *)
Definition is_continuation (b : N) : bool := (128 <=? b) && (b <=? 191).

Fixpoint utf8_decode (bs : pybytes) : option pystr :=
  match bs with
  | [] => Some []
  | b :: r0 =>
      if b <? 128 then option_map (cons b) (utf8_decode r0)
      else
        match r0 with
        | [] => None
        | b1 :: r1 =>
            if negb (is_continuation b1) then None
            else if (194 <=? b) && (b <=? 223) then
              option_map
                (cons (N.lor (N.shiftl (N.land b 31) 6) (N.land b1 63)))
                (utf8_decode r1)
            else
              match r1 with
              | [] => None
              | b2 :: r2 =>
                  if negb (is_continuation b2) then None
                  else if (224 <=? b) && (b <=? 239) then
                    if ((b =? 224) && (b1 <? 160)) || ((b =? 237) && (159 <? b1))
                    then None
                    else
                      option_map
                        (cons (N.lor (N.shiftl (N.land b 15) 12)
                                 (N.lor (N.shiftl (N.land b1 63) 6)
                                    (N.land b2 63))))
                        (utf8_decode r2)
                  else
                    match r2 with
                    | [] => None
                    | b3 :: r3 =>
                        if negb (is_continuation b3) then None
                        else if (240 <=? b) && (b <=? 244) then
                          if ((b =? 240) && (b1 <? 144))
                             || ((b =? 244) && (143 <? b1))
                          then None
                          else
                            option_map
                              (cons (N.lor (N.shiftl (N.land b 7) 18)
                                       (N.lor (N.shiftl (N.land b1 63) 12)
                                          (N.lor (N.shiftl (N.land b2 63) 6)
                                             (N.land b3 63)))))
                              (utf8_decode r3)
                        else None
                    end
              end
        end
  end.

Definition bytes_decode (bs : pybytes) : Outcome pystr :=
  match utf8_decode bs with
  | Some s => Return s
  | None => Raise UnicodeDecodeError None
  end.

(** ** [int(s)] *)

(** [Py_UNICODE_ISSPACE] on code points from 127 up. *)
Definition is_unicode_space (c : N) : bool :=
  (c =? 133) || (c =? 160) || (c =? 5760)
  || ((8192 <=? c) && (c <=? 8202))
  || (c =? 8232) || (c =? 8233) || (c =? 8239) || (c =? 8287)
  || (c =? 12288).

(** [Py_ISSPACE]: the C-locale white space. *)
Definition is_space (c : N) : bool :=
  (c =? 32) || ((9 <=? c) && (c <=? 13)).

Definition digit_value (c : N) : option N :=
  if (48 <=? c) && (c <=? 57) then Some (c - 48) else None.

(** The digits of a base-10 literal, single underscores allowed between
    digits, then trailing white space up to the end.  [prev_us] records
    that the previous character was an underscore. *)
Fixpoint parse_digits (s : pystr) (prev_us : bool) (acc : N) : option N :=
  match s with
  | [] => if prev_us then None else Some acc
  | c :: s' =>
      match digit_value c with
      | Some d => parse_digits s' false (acc * 10 + d)
      | None =>
          if c =? 95 then
            if prev_us then None else parse_digits s' true acc
          else if prev_us then None
          else if forallb is_space s then Some acc
          else None
      end
  end.

Fixpoint skip_spaces (s : pystr) : pystr :=
  match s with
  | c :: s' => if is_space c then skip_spaces s' else s
  | [] => []
  end.

(** The literal after leading white space and sign: it starts with a digit. *)
Definition parse_unsigned (s : pystr) : option N :=
  match s with
  | c :: _ =>
      match digit_value c with
      | Some _ => parse_digits s false 0
      | None => None
      end
  | [] => None
  end.

Section PyInt.

(** [Py_UNICODE_TODECIMAL] on code points from 127 up: the decimal-digit
    property of the Unicode database the interpreter was built with. *)
Variable unicode_decimal : N -> option N.

(** Every character is first brought to ASCII: white space becomes a
    blank, a decimal digit its ASCII digit, anything else [?]. *)
Definition to_ascii_char (c : N) : N :=
  if c <? 127 then c
  else if is_unicode_space c then 32
  else match unicode_decimal c with
       | Some d => 48 + d
       | None => 63
       end.

(** [int(s)] in base 10 ([PyLong_FromUnicodeObject]).  The 4300-digit
    conversion limit of recent CPython is not modelled. *)
Definition py_int (s : pystr) : Outcome Z :=
  let a := skip_spaces (map to_ascii_char s) in
  let '(negative, a) :=
    match a with
    | 43 :: a' => (false, a')
    | 45 :: a' => (true, a')
    | _ => (false, a)
    end in
  match parse_unsigned a with
  | Some n => Return (if negative then (- Z.of_N n)%Z else Z.of_N n)
  | None => Raise ValueError None
  end.

End PyInt.

(** A Unicode database without decimal digits beyond ASCII; used where a
    concrete interpreter is needed. *)
Definition ascii_digits_only : N -> option N := fun _ => None.

(** ** [base64] and [binascii] *)

Definition BASE64_PAD : N := 61.

Definition table_b2a_base64 : pybytes :=
  text "ABCDEFGHIJKLMNOPQRSTUVWXYZabcdefghijklmnopqrstuvwxyz0123456789+/".

Definition b2a_char (v : N) : N := nth (N.to_nat v) table_b2a_base64 0.

Fixpoint index_of (c : N) (l : list N) (i : N) : option N :=
  match l with
  | [] => None
  | x :: l' => if x =? c then Some i else index_of c l' (i + 1)
  end.

(** The value of a base64 digit, [None] for any other octet. *)
Definition table_a2b_base64 (c : N) : option N :=
  index_of c table_b2a_base64 0.

(** [binascii.b2a_base64(bin, newline=False)]: RFC 4648 section 4. *)
Fixpoint b2a_base64 (bin : pybytes) : pybytes :=
  match bin with
  | [] => []
  | [b1] =>
      [ b2a_char (N.shiftr b1 2);
        b2a_char (N.shiftl (N.land b1 3) 4);
        BASE64_PAD; BASE64_PAD ]
  | [b1; b2] =>
      [ b2a_char (N.shiftr b1 2);
        b2a_char (N.lor (N.shiftl (N.land b1 3) 4) (N.shiftr b2 4));
        b2a_char (N.shiftl (N.land b2 15) 2);
        BASE64_PAD ]
  | b1 :: b2 :: b3 :: rest =>
      b2a_char (N.shiftr b1 2)
      :: b2a_char (N.lor (N.shiftl (N.land b1 3) 4) (N.shiftr b2 4))
      :: b2a_char (N.lor (N.shiftl (N.land b2 15) 2) (N.shiftr b3 6))
      :: b2a_char (N.land b3 63)
      :: b2a_base64 rest
  end.

(** [bytes.maketrans(b'+/', b'-_')] and its inverse. *)
Definition _urlsafe_encode_translation (c : N) : N :=
  if c =? 43 then 45 else if c =? 47 then 95 else c.

Definition _urlsafe_decode_translation (c : N) : N :=
  if c =? 45 then 43 else if c =? 95 then 47 else c.

(** [base64.urlsafe_b64encode(s)]. *)
Definition urlsafe_b64encode (s : pybytes) : pybytes :=
  map _urlsafe_encode_translation (b2a_base64 s).

Definition emit (b : N) (rest : option pybytes) : option pybytes :=
  option_map (cons b) rest.

(** The loop of [binascii.a2b_base64] in its default, non-strict mode
    (CPython 3.11, Modules/binascii.c).  Octets outside the alphabet
    are skipped; a pad ends the input once it completes a quad begun with
    at least two digits; [None] is [binascii.Error], raised when the input
    ends inside a quad. *)
Fixpoint a2b_loop (ascii_data : pybytes) (quad_pos leftchar pads : N)
  : option pybytes :=
  match ascii_data with
  | [] => if quad_pos =? 0 then Some [] else None
  | this_ch :: rest =>
      if this_ch =? BASE64_PAD then
        if (2 <=? quad_pos) && (4 <=? quad_pos + (pads + 1)) then Some []
        else a2b_loop rest quad_pos leftchar
               (if 2 <=? quad_pos then pads + 1 else pads)
      else
        match table_a2b_base64 this_ch with
        | None => a2b_loop rest quad_pos leftchar pads
        | Some v =>
            if quad_pos =? 0 then a2b_loop rest 1 v 0
            else if quad_pos =? 1 then
              emit (N.lor (N.shiftl leftchar 2) (N.shiftr v 4))
                (a2b_loop rest 2 (N.land v 15) 0)
            else if quad_pos =? 2 then
              emit (N.lor (N.shiftl leftchar 4) (N.shiftr v 2))
                (a2b_loop rest 3 (N.land v 3) 0)
            else
              emit (N.lor (N.shiftl leftchar 6) v) (a2b_loop rest 0 0 0)
        end
  end.

Definition a2b_base64 (data : pybytes) : Outcome pybytes :=
  match a2b_loop data 0 0 0 with
  | Some bin => Return bin
  | None => Raise binascii_Error None
  end.

(** [base64._bytes_from_decode_data(s)] for a [str]. *)
Definition _bytes_from_decode_data (s : pystr) : Outcome pybytes :=
  if forallb (fun c => c <? 128) s then Return s
  else Raise ValueError
         (Some (text "string argument should contain only ASCII characters")).

(** [base64.urlsafe_b64decode(s)] for a [str]. *)
Definition urlsafe_b64decode (s : pystr) : Outcome pybytes :=
  b <- _bytes_from_decode_data s ;;
  a2b_base64 (map _urlsafe_decode_translation b).

(** ** [google.cloud.datastore.Key] *)

Inductive Token : Type :=
| TStr (s : pystr)
| TInt (n : Z).

(** One element of [Key.path]: a kind and, unless the key is partial and
    this is its last element, a name or an id. *)
Record PathElement : Type := mkPathElement {
  pe_kind : pystr;
  pe_id_or_name : option Token
}.

Record Key : Type := mkKey {
  flat_path : list Token;
  path : list PathElement
}.

(** [Key._parse_path(path_args)] after its emptiness test: kinds must be
    strings; a name is a string and an id an integer; a trailing kind alone
    makes a partial key. *)
Fixpoint _parse_path (path_args : list Token) : Outcome (list PathElement) :=
  match path_args with
  | [] => Return []
  | TInt _ :: _ => Raise ValueError None
  | TStr kind :: [] => Return [mkPathElement kind None]
  | TStr kind :: id_or_name :: rest =>
      elems <- _parse_path rest ;;
      Return (mkPathElement kind (Some id_or_name) :: elems)
  end.

(** [Key] called with the tokens as positional arguments. *)
Definition datastore_Key (path_args : list Token) : Outcome Key :=
  match path_args with
  | [] => Raise ValueError (Some (text "Key path must not be empty."))
  | _ => elems <- _parse_path path_args ;;
         Return (mkKey path_args elems)
  end.

(** [key.kind]: [self.path[-1]['kind']]. *)
Definition Key_kind (key : Key) : Outcome pystr :=
  match rev (path key) with
  | e :: _ => Return (pe_kind e)
  | [] => Raise IndexError None
  end.

(** ** The process and the [Client] singleton *)

(** [ds_client] is the class attribute [Client.ds_client], holding the
    identity of the cached [datastore.Client]; [clients_created] counts the
    [datastore.Client] objects built so far; [credentials] tells whether
    the environment lets [datastore.Client()] succeed. *)
Record Process : Type := mkProcess {
  ds_client : option nat;
  clients_created : nat;
  credentials : bool
}.

Definition Proc (A : Type) : Type := Process -> Outcome A * Process.

Definition pbind {A B} (c : Proc A) (k : A -> Proc B) : Proc B :=
  fun p =>
    match c p with
    | (Return a, p') => k a p'
    | (Raise e m, p') => (Raise e m, p')
    end.

Definition lift {A} (o : Outcome A) : Proc A := fun p => (o, p).

Notation "x <~ c ;; k" := (pbind c (fun x => k))
  (at level 61, c at next level, right associativity) : py_scope.

(** [datastore.Client()]: a new client object, or an error of the
    authentication library when the environment has no credentials. *)
Definition datastore_Client : Proc nat :=
  fun p =>
    if credentials p then
      (Return (clients_created p),
       mkProcess (ds_client p) (S (clients_created p)) (credentials p))
    else (Raise DefaultCredentialsError None, p).

(** [Client()], that is [Client.__init__]:
    [if not Client.ds_client: Client.ds_client = datastore.Client()]. *)
Definition Client : Proc unit :=
  fun p =>
    match ds_client p with
    | Some _ => (Return tt, p)
    | None =>
        match datastore_Client p with
        | (Return handle, p') =>
            (Return tt,
             mkProcess (Some handle) (clients_created p') (credentials p'))
        | (Raise e m, p') => (Raise e m, p')
        end
    end.

(** [Client().key] called with the tokens as positional arguments:
    [__getattr__] hands [key] over to the cached client, which builds the
    [Key]. *)
Definition Client_key (path_args : list Token) : Proc Key :=
  _ <~ Client ;; lift (datastore_Key path_args).

(** ** [get_resource_id_from_key] *)

(** [encoded.replace(b'=', b'')]. *)
Definition remove_pad (encoded : pybytes) : pybytes :=
  filter (fun c => negb (c =? BASE64_PAD)) encoded.

Definition str_of_token (t : Token) : pystr :=
  match t with
  | TStr s => s
  | TInt n => str_of_int n
  end.

(** Truth value of a [str] or an [int]. *)
Definition truthy (t : Token) : bool :=
  match t with
  | TStr [] => false
  | TStr _ => true
  | TInt n => negb (n =? 0)%Z
  end.

(** [a = iter(key.flat_path); pairs = zip(a, a)]. *)
Fixpoint zip_pairs (flat : list Token) : list (Token * Token) :=
  match flat with
  | k :: i :: rest => (k, i) :: zip_pairs rest
  | _ => []
  end.

(** The body of [for pair in pairs], [pair_strings] being the list built
    so far. *)
Fixpoint pair_loop (pairs : list (Token * Token)) (pair_strings : list pystr)
  : Outcome (list pystr) :=
  match pairs with
  | [] => Return pair_strings
  | (pair_0, pair_1) :: rest =>
      let kind := str_of_token pair_0 in
      let key_or_id := pair_1 in
      if negb (truthy (TStr kind) && truthy key_or_id) then
        msg <- format_pair_err (TupleOf 2) ;;
        Raise InvalidKeyException msg
      else
        let key_or_id :=
          match key_or_id with
          | TInt n => INTPREFIX :: str_of_int n
          | TStr s => s
          end in
        pair_loop rest (pair_strings ++ [kind ++ SEPARATOR :: key_or_id])
  end.

Definition get_resource_id_from_key (key : Key) : Outcome pystr :=
  let path := flat_path key in
  if negb (N.land (N.of_nat (length path)) 1 =? 0) then
    msg <- format_pair_err OneObject ;;
    Raise InvalidKeyException msg
  else
    pair_strings <- pair_loop (zip_pairs (flat_path key)) [] ;;
    buff <- encode_ascii (join SEPARATOR pair_strings) ;;
    let encoded := urlsafe_b64encode buff in
    let encoded := remove_pad encoded in
    bytes_decode encoded.

(** ** [get_key_from_resource_id] and [get_entity_by_resource_id] *)

(** [try: body except handlers: raise replacement]. *)
Definition try_except {A} (body : Outcome A) (handlers : list ExcClass)
    (replacement : ExcClass) (msg : pystr) : Outcome A :=
  match body with
  | Return a => Return a
  | Raise c m =>
      if caught_by handlers c then Raise replacement (Some msg)
      else Raise c m
  end.

(** Lines 72-75: the padding put back. *)
Definition restore_padding (resource_id : pystr) : pystr :=
  let modulo := N.of_nat (length resource_id) mod 4 in
  if negb (modulo =? 0) then
    resource_id ++ repeat BASE64_PAD (N.to_nat (4 - modulo))
  else resource_id.

(** Lines 78-81: the guarded base64 step. *)
Definition decode_payload (resource_id : pystr) : Outcome pystr :=
  try_except
    (raw <- urlsafe_b64decode resource_id ;; bytes_decode raw)
    [binascii_Error] InvalidIdException
    (text "Could not base64 decode resource_id").

Section Decode.

Variable unicode_decimal : N -> option N.

(** The body of [for bit in bits], [key_pairs] being the list built so
    far. *)
Fixpoint bits_loop (bits : list pystr) (key_pairs : list Token)
  : Outcome (list Token) :=
  match bits with
  | [] => Return key_pairs
  | bit :: rest =>
      match bit with
      | [] => Raise IndexError None
      | c :: tail =>
          if c =? INTPREFIX then
            n <- py_int unicode_decimal tail ;;
            bits_loop rest (key_pairs ++ [TInt n])
          else bits_loop rest (key_pairs ++ [TStr bit])
      end
  end.

(** Lines 72-89: everything before the key is built. *)
Definition decode_tokens (resource_id : pystr) : Outcome (list Token) :=
  decoded <- decode_payload (restore_padding resource_id) ;;
  bits_loop (split SEPARATOR decoded) [].

Definition get_key_from_resource_id (resource_id : pystr) : Proc Key :=
  key_pairs <~ lift (decode_tokens resource_id) ;;
  Client_key key_pairs.

Section Lookup.

(** The entities kept by the datastore, and [client.get(key)]: the
    entity, [None] when there is none, or an error of the service. *)
Variable Entity : Type.
Variable datastore_get : Key -> Outcome (option Entity).

(** [Client().get(key)]. *)
Definition Client_get (key : Key) : Proc (option Entity) :=
  _ <~ Client ;; lift (datastore_get key).

(** The body of the [try] of [get_entity_by_resource_id]. *)
Definition resolve_body (expected_kind resource_id : pystr)
  : Proc (option Entity) :=
  key <~ get_key_from_resource_id resource_id ;;
  kind <~ lift (Key_kind key) ;;
  if negb (pystr_eqb kind expected_kind) then
    lift (Raise ValueError (Some (_kind_err expected_kind kind)))
  else Client_get key.

Definition get_entity_by_resource_id (expected_kind resource_id : pystr)
  : Proc (option Entity) :=
  fun p =>
    match resource_id with
    | [] => (Raise ValueError (Some (_id_type_err resource_id)), p)
    | _ =>
        let '(o, p') := resolve_body expected_kind resource_id p in
        (try_except o [ValueError; AttributeError; IndexError; TypeError]
           InvalidIdException (_invalid_id_err resource_id), p')
    end.

End Lookup.

End Decode.

(** A process that has not yet built a client, in an environment where
    one can be built. *)
Definition fresh_process : Process := mkProcess None 0 true.

(** * Vocabulary of the properties *)

(** A KeyPath: the ordered (kind, identifier) pairs of a key. *)
Definition KeyPath : Type := list (pystr * Token).

Definition flatten (p : KeyPath) : list Token :=
  flat_map (fun ki => [TStr (fst ki); snd ki]) p.

Definition nonempty (s : pystr) : bool :=
  match s with
  | [] => false
  | _ => true
  end.

(** No separator and no tag marker inside. *)
Definition sentinel_free (s : pystr) : bool :=
  forallb (fun c => negb (c =? SEPARATOR) && negb (c =? INTPREFIX)) s.

Definition is_ascii (s : pystr) : bool := forallb (fun c => c <? 128) s.

(** Well-formed as the data model has it: kinds are non-empty strings,
    identifiers are non-empty strings or integers, and no string holds a
    sentinel. *)
Definition well_formed_pair (ki : pystr * Token) : bool :=
  nonempty (fst ki) && sentinel_free (fst ki) &&
  match snd ki with
  | TStr s => nonempty s && sentinel_free s
  | TInt _ => true
  end.

Definition well_formed_KeyPath (p : KeyPath) : bool :=
  match p with
  | [] => false
  | _ => forallb well_formed_pair p
  end.

(** What the encoder accepts on top of that: ASCII strings and integers
    other than zero. *)
Definition encodable_pair (ki : pystr * Token) : bool :=
  well_formed_pair ki && is_ascii (fst ki) &&
  match snd ki with
  | TStr s => is_ascii s
  | TInt n => negb (n =? 0)%Z
  end.

Definition encodable_KeyPath (p : KeyPath) : bool :=
  match p with
  | [] => false
  | _ => forallb encodable_pair p
  end.

(** The process holds a client already, or can build one. *)
Definition client_available (p : Process) : bool :=
  match ds_client p with
  | Some _ => true
  | None => credentials p
  end.

(** Decoding the encoding of a key with path [p] gives a key with the same
    flat path. *)
Definition round_trips (unicode_decimal : N -> option N) (proc : Process)
    (p : KeyPath) : Prop :=
  forall key, flat_path key = flatten p ->
  exists rid key' proc',
    get_resource_id_from_key key = Return rid /\
    get_key_from_resource_id unicode_decimal rid proc = (Return key', proc') /\
    flat_path key' = flatten p.

(** The text a token has on the wire: a string as it is, an integer as
    the tag marker and its decimals. *)
Definition token_text (t : Token) : pystr :=
  match t with
  | TStr s => s
  | TInt n => INTPREFIX :: str_of_int n
  end.

(** A token the codec carries faithfully: a non-empty ASCII string without
    sentinels, or any integer. *)
Definition faithful_token (t : Token) : bool :=
  match t with
  | TStr s => nonempty s && sentinel_free s && is_ascii s
  | TInt _ => true
  end.

(** A pair the guard of the encoding loop turns down. *)
Definition rejected_pair (pr : Token * Token) : bool :=
  negb (truthy (TStr (str_of_token (fst pr))) && truthy (snd pr)).

(** A pair with an empty kind or an empty string identifier. *)
Definition empty_component (pr : Token * Token) : bool :=
  negb (nonempty (str_of_token (fst pr))) ||
  match snd pr with
  | TStr [] => true
  | _ => false
  end.

(** A pair whose identifier is the integer 0. *)
Definition zero_identifier (pr : Token * Token) : bool :=
  match snd pr with
  | TInt 0 => true
  | _ => false
  end.

(** What the decoding loop does with one token, whatever its position. *)
Definition tag_bit (unicode_decimal : N -> option N) (bit : pystr)
  : Outcome Token :=
  match bit with
  | [] => Raise IndexError None
  | c :: tail =>
      if c =? INTPREFIX then
        n <- py_int unicode_decimal tail ;; Return (TInt n)
      else Return (TStr bit)
  end.

(** [tok] is what the loop makes of [bit]. *)
Definition tagged (unicode_decimal : N -> option N) (bit : pystr)
    (tok : Token) : Prop :=
  tag_bit unicode_decimal bit = Return tok.

(** A digit of the URL-safe alphabet (the standard [+] and [/] are digits
    for the decoder as well). *)
Definition is_b64_digit (c : N) : bool :=
  match table_a2b_base64 (_urlsafe_decode_translation c) with
  | Some _ => true
  | None => false
  end.

(** [n] constructions of [Client()] in a row. *)
Fixpoint construct (n : nat) (p : Process) : Process :=
  match n with
  | O => p
  | S n' => construct n' (snd (Client p))
  end.

(** The cell and the count of clients agree: no client built while the
    cell is empty, exactly one once it is filled. *)
Definition singleton_invariant (p : Process) : Prop :=
  match ds_client p with
  | Some _ => clients_created p = 1%nat
  | None => clients_created p = 0%nat
  end.

(** The classes named by the [except] clause of
    [get_entity_by_resource_id]. *)
Definition resolve_handlers : list ExcClass :=
  [ValueError; AttributeError; IndexError; TypeError].

(** The message of the unifying error holds the resource id. *)
Definition carries (msg resource_id : pystr) : Prop :=
  exists before after, msg = before ++ resource_id ++ after.

Definition unifying_error {A} (resource_id : pystr) : Outcome A :=
  Raise InvalidIdException (Some (_invalid_id_err resource_id)).

(** ** [get_entity_key_by_keystr] *)

Definition _keystr_type_err (keystr : pystr) : pystr :=
  text "Keystrings must of type str. Received: " ++ keystr.

Section Legacy.

(** [datastore.Key.from_legacy_urlsafe(keystr)]: the decoder of the
    datastore's own key strings, a function of the client library. *)
Variable from_legacy_urlsafe : pystr -> Outcome Key.

Definition get_entity_key_by_keystr (expected_kind keystr : pystr)
  : Outcome Key :=
  match keystr with
  | [] => Raise ValueError (Some (_keystr_type_err keystr))
  | _ =>
      ndb_key <- from_legacy_urlsafe keystr ;;
      kind <- Key_kind ndb_key ;;
      if negb (pystr_eqb kind expected_kind) then
        Raise ValueError (Some (_kind_err expected_kind kind))
      else Return ndb_key
  end.

End Legacy.

(** ** More vocabulary *)

(** The text of one pair as the encoding loop writes it. *)
Definition pair_text (pr : Token * Token) : pystr :=
  str_of_token (fst pr) ++ SEPARATOR :: token_text (snd pr).

(** The text the encoder hands to base64. *)
Definition wire_text (key : Key) : pystr :=
  join SEPARATOR (map pair_text (zip_pairs (flat_path key))).

(** The sextets of a byte string, the last one filled up with zero bits. *)
Fixpoint sextets (bin : pybytes) : list N :=
  match bin with
  | [] => []
  | [b1] => [N.shiftr b1 2; N.shiftl (N.land b1 3) 4]
  | [b1; b2] =>
      [N.shiftr b1 2;
       N.lor (N.shiftl (N.land b1 3) 4) (N.shiftr b2 4);
       N.shiftl (N.land b2 15) 2]
  | b1 :: b2 :: b3 :: rest =>
      N.shiftr b1 2
      :: N.lor (N.shiftl (N.land b1 3) 4) (N.shiftr b2 4)
      :: N.lor (N.shiftl (N.land b2 15) 2) (N.shiftr b3 6)
      :: N.land b3 63
      :: sextets rest
  end.

(** A character of the URL-safe alphabet: a letter, a digit, [-] or [_]. *)
Definition is_urlsafe_char (c : N) : bool :=
  ((65 <=? c) && (c <=? 90)) || ((97 <=? c) && (c <=? 122))
  || ((48 <=? c) && (c <=? 57)) || (c =? 45) || (c =? 95).

Definition starts_with_tag (s : pystr) : bool :=
  match s with
  | c :: _ => c =? INTPREFIX
  | [] => false
  end.

(** A token as the decoder produces it: an integer, or a non-empty string
    without separator that does not begin with the tag marker. *)
Definition decoded_token (t : Token) : bool :=
  match t with
  | TStr s =>
      nonempty s && negb (starts_with_tag s)
      && forallb (fun c => negb (c =? SEPARATOR)) s
  | TInt _ => true
  end.

(** The kind of the last pair of a path. *)
Definition leaf_kind (p : KeyPath) : pystr := fst (last p ([], TInt 0)).

(** The key the client builds for a path. *)
Definition key_of_path (p : KeyPath) : Key :=
  mkKey (flatten p)
    (map (fun ki => mkPathElement (fst ki) (Some (snd ki))) p).

(** One call into the module, and a run of such calls on a process. *)
Inductive Call : Type :=
| CallClient
| CallDecode (resource_id : pystr)
| CallResolve (expected_kind resource_id : pystr).

Section Runs.

Variable unicode_decimal : N -> option N.
Variable Entity : Type.
Variable datastore_get : Key -> Outcome (option Entity).

Definition run_call (call : Call) (p : Process) : Process :=
  match call with
  | CallClient => snd (Client p)
  | CallDecode rid => snd (get_key_from_resource_id unicode_decimal rid p)
  | CallResolve kind rid =>
      snd (get_entity_by_resource_id unicode_decimal datastore_get kind rid p)
  end.

Fixpoint run_calls (calls : list Call) (p : Process) : Process :=
  match calls with
  | [] => p
  | call :: rest => run_calls rest (run_call call p)
  end.

End Runs.

(** A character the base64 decoder takes note of: a digit or the pad. *)
Definition is_significant (c : N) : bool :=
  is_b64_digit c || (c =? BASE64_PAD).

(** The tokens in the kind positions of a flat path: every other token,
    the first one and the lone last one of a partial key included. *)
Fixpoint kind_tokens (flat : list Token) : list Token :=
  match flat with
  | [] => []
  | k :: [] => [k]
  | k :: _ :: rest => k :: kind_tokens rest
  end.

Definition is_string_token (t : Token) : bool :=
  match t with
  | TStr _ => true
  | TInt _ => false
  end.

(** * The encoder: structural checks *)

Lemma N_even_of_nat (n : nat) : N.even (N.of_nat n) = Nat.even n.
Proof.
  induction n as [|n IH]; [reflexivity|].
  rewrite Nat2N.inj_succ, N.even_succ, Nat.even_succ.
  unfold N.odd, Nat.odd. now rewrite IH.
Qed.

Lemma land_1_odd (n : nat) :
  negb (N.land (N.of_nat n) 1 =? 0) = Nat.odd n.
Proof.
  unfold Nat.odd. rewrite <- N_even_of_nat.
  destruct (N.of_nat n) as [|[q|q|]]; reflexivity.
Qed.

(** An odd flat path is turned down before any pair is looked at. *)
Lemma odd_path_rejected (key : Key) :
  Nat.odd (length (flat_path key)) = true ->
  get_resource_id_from_key key = Raise InvalidKeyException None.
Proof.
  intros Hodd. unfold get_resource_id_from_key.
  rewrite land_1_odd, Hodd. reflexivity.
Qed.

Lemma even_path_enters_loop (key : Key) :
  Nat.odd (length (flat_path key)) = false ->
  get_resource_id_from_key key =
    (pair_strings <- pair_loop (zip_pairs (flat_path key)) [] ;;
     buff <- encode_ascii (join SEPARATOR pair_strings) ;;
     bytes_decode (remove_pad (urlsafe_b64encode buff))).
Proof.
  intros Heven. unfold get_resource_id_from_key.
  rewrite land_1_odd, Heven. reflexivity.
Qed.

(** The guard of the loop never yields [InvalidKeyException]: building the
    message fails first. *)
Lemma pair_loop_rejected (pairs : list (Token * Token)) :
  existsb rejected_pair pairs = true ->
  forall pair_strings, pair_loop pairs pair_strings = Raise TypeError None.
Proof.
  induction pairs as [|[k i] rest IH]; simpl; [discriminate|].
  intros H acc. unfold rejected_pair in H at 1. simpl in H.
  match goal with |- context [if ?b then _ else _] => destruct b end.
  - reflexivity.
  - simpl in H. now apply IH.
Qed.

Lemma rejected_key_TypeError (key : Key) :
  Nat.odd (length (flat_path key)) = false ->
  existsb rejected_pair (zip_pairs (flat_path key)) = true ->
  get_resource_id_from_key key = Raise TypeError None.
Proof.
  intros Heven Hrej.
  rewrite (even_path_enters_loop _ Heven), (pair_loop_rejected _ Hrej).
  reflexivity.
Qed.

(** C3 (amended): a key whose flat path has an odd number of components
    is rejected with [InvalidKeyException]. *)
Theorem C3_odd_flat_path_InvalidKeyException (key : Key) :
  Nat.odd (length (flat_path key)) = true ->
  get_resource_id_from_key key = Raise InvalidKeyException None.
Proof. exact (odd_path_rejected key). Qed.

Lemma C3_odd_flat_path_witness :
  get_resource_id_from_key
    (mkKey [TStr (text "UserEntity"); TInt 1; TStr (text "Child")] [])
  = Raise InvalidKeyException None.
Proof.
  apply C3_odd_flat_path_InvalidKeyException. reflexivity.
Defined.

(** C3, as stated, fails on the empty flat path: the encoder has no test
    for it and returns the empty resource id. *)
Lemma C3_empty_path_not_rejected :
  get_resource_id_from_key (mkKey [] []) = Return [] /\
  ~ raises (get_resource_id_from_key (mkKey [] [])) InvalidKeyException.
Proof.
  split; [reflexivity|]. intros [m H]. vm_compute in H. discriminate H.
Qed.

(** No key with an empty flat path leaves the key constructor. *)
Lemma datastore_Key_nonempty (path_args : list Token) (key : Key) :
  datastore_Key path_args = Return key ->
  flat_path key = path_args /\ path_args <> [].
Proof.
  unfold datastore_Key.
  destruct path_args as [|t rest]; [discriminate|].
  destruct (_parse_path (t :: rest)); simpl; [|discriminate].
  intros H; inversion H; subst; simpl. split; [reflexivity|discriminate].
Qed.

Lemma existsb_weaken {A} (f g : A -> bool) (l : list A) :
  (forall x, f x = true -> g x = true) ->
  existsb f l = true -> existsb g l = true.
Proof.
  intros Hfg H. apply existsb_exists in H. destruct H as [x [Hin Hx]].
  apply existsb_exists. exists x. auto.
Qed.

Lemma empty_component_rejected (pr : Token * Token) :
  empty_component pr = true -> rejected_pair pr = true.
Proof.
  destruct pr as [k i]. unfold empty_component, rejected_pair. simpl.
  destruct (str_of_token k) as [|c0 s0]; simpl; [reflexivity|].
  destruct i as [[|c s]|z]; simpl; try discriminate. reflexivity.
Qed.

Lemma zero_identifier_rejected (pr : Token * Token) :
  zero_identifier pr = true -> rejected_pair pr = true.
Proof.
  destruct pr as [k i]. unfold zero_identifier, rejected_pair. simpl.
  destruct i as [s|[|q|q]]; try discriminate. intros _.
  now rewrite andb_false_r.
Qed.

(** C8: an empty kind or an empty string identifier anywhere in an even
    flat path makes the encoder raise [TypeError]; the intended
    [InvalidKeyException] is never raised. *)
Theorem C8_empty_component_TypeError (key : Key) :
  Nat.odd (length (flat_path key)) = false ->
  existsb empty_component (zip_pairs (flat_path key)) = true ->
  get_resource_id_from_key key = Raise TypeError None.
Proof.
  intros Heven H. apply rejected_key_TypeError; [exact Heven|].
  exact (existsb_weaken _ _ _ empty_component_rejected H).
Qed.

Lemma C8_empty_component_witness :
  get_resource_id_from_key (mkKey [TStr (text "UserEntity"); TStr []] [])
  = Raise TypeError None.
Proof.
  apply C8_empty_component_TypeError; reflexivity.
Defined.

(** C10: the integer identifier 0 anywhere in an even flat path makes the
    encoder raise [TypeError]; the intended [InvalidKeyException] is never
    raised. *)
Theorem C10_zero_id_TypeError (key : Key) :
  Nat.odd (length (flat_path key)) = false ->
  existsb zero_identifier (zip_pairs (flat_path key)) = true ->
  get_resource_id_from_key key = Raise TypeError None.
Proof.
  intros Heven H. apply rejected_key_TypeError; [exact Heven|].
  exact (existsb_weaken _ _ _ zero_identifier_rejected H).
Qed.

Lemma C10_zero_id_witness :
  get_resource_id_from_key (mkKey [TStr (text "UserEntity"); TInt 0] [])
  = Raise TypeError None.
Proof.
  apply C10_zero_id_TypeError; reflexivity.
Defined.

(** * The [Client] singleton *)

Lemma Client_cached (p : Process) (h : nat) :
  ds_client p = Some h -> Client p = (Return tt, p).
Proof. intros H. unfold Client. now rewrite H. Qed.

Lemma Client_preserves_invariant (p : Process) :
  singleton_invariant p -> singleton_invariant (snd (Client p)).
Proof.
  unfold singleton_invariant, Client, datastore_Client.
  destruct p as [[h|] n c]; simpl; [trivial|].
  intros ->. destruct c; reflexivity.
Qed.

Lemma construct_preserves_invariant (n : nat) :
  forall p, singleton_invariant p -> singleton_invariant (construct n p).
Proof.
  induction n as [|n IH]; intros p Hp; simpl; [exact Hp|].
  apply IH, Client_preserves_invariant, Hp.
Qed.

Lemma construct_cached (n : nat) (p : Process) (h : nat) :
  ds_client p = Some h -> construct n p = p.
Proof.
  intros H. induction n as [|n IH]; simpl; [reflexivity|].
  now rewrite (Client_cached _ H).
Qed.

Lemma construct_add (n m : nat) :
  forall p, construct (n + m) p = construct m (construct n p).
Proof.
  induction n as [|n IH]; intros p; simpl; [reflexivity|apply IH].
Qed.

Lemma invariant_at_most_one (p : Process) :
  singleton_invariant p -> (clients_created p <= 1)%nat.
Proof.
  unfold singleton_invariant. destruct (ds_client p); intros ->; lia.
Qed.

(** C9: from a process that holds no client yet, any number of
    [Client()] constructions builds at most one [datastore.Client]; once
    the cell holds a handle, every later construction succeeds and leaves
    the process, the handle included, as it is. *)
Theorem C9_Client_singleton (p : Process) (n : nat) :
  ds_client p = None -> clients_created p = 0%nat ->
  (clients_created (construct n p) <= 1)%nat /\
  (forall h, ds_client (construct n p) = Some h ->
     Client (construct n p) = (Return tt, construct n p) /\
     forall m, construct (n + m) p = construct n p).
Proof.
  intros Hnone Hzero. split.
  - apply invariant_at_most_one, construct_preserves_invariant.
    unfold singleton_invariant. now rewrite Hnone.
  - intros h Hh. split; [exact (Client_cached _ Hh)|].
    intros m. rewrite construct_add. exact (construct_cached m _ Hh).
Qed.

Lemma C9_Client_singleton_witness :
  (clients_created (construct 3 fresh_process) <= 1)%nat /\
  ds_client (construct 3 fresh_process) = Some 0%nat /\
  construct (3 + 2) fresh_process = construct 3 fresh_process.
Proof.
  destruct (C9_Client_singleton fresh_process 3 eq_refl eq_refl) as [H1 H2].
  split; [exact H1|]. split; [reflexivity|].
  exact (proj2 (H2 0%nat eq_refl) 2%nat).
Defined.

(** Decoding and resolving reach the client through [Client()] alone, so
    they keep the invariant. *)
Lemma get_key_preserves_invariant (unicode_decimal : N -> option N)
    (resource_id : pystr) (p : Process) :
  singleton_invariant p ->
  singleton_invariant
    (snd (get_key_from_resource_id unicode_decimal resource_id p)).
Proof.
  intros Hp. unfold get_key_from_resource_id, Client_key, pbind, lift.
  destruct (decode_tokens unicode_decimal resource_id) as [toks|c m];
    [|exact Hp].
  assert (H := Client_preserves_invariant p Hp).
  destruct (Client p) as [[u|c m] p']; simpl in *; [|exact H].
  destruct (datastore_Key toks); exact H.
Qed.

Lemma get_entity_preserves_invariant (unicode_decimal : N -> option N)
    (Entity : Type) (datastore_get : Key -> Outcome (option Entity))
    (expected_kind resource_id : pystr) (p : Process) :
  singleton_invariant p ->
  singleton_invariant
    (snd (get_entity_by_resource_id unicode_decimal datastore_get
            expected_kind resource_id p)).
Proof.
  intros Hp. unfold get_entity_by_resource_id.
  destruct resource_id as [|x rid]; [exact Hp|].
  unfold resolve_body, pbind, lift.
  assert (H := get_key_preserves_invariant unicode_decimal (x :: rid) p Hp).
  destruct (get_key_from_resource_id unicode_decimal (x :: rid) p)
    as [[key|c m] p1]; simpl in *; [|exact H].
  destruct (Key_kind key) as [kind|c m]; simpl; [|exact H].
  destruct (negb (pystr_eqb kind expected_kind)); simpl; [exact H|].
  unfold Client_get, pbind, lift.
  assert (H1 := Client_preserves_invariant p1 H).
  destruct (Client p1) as [[u|c m] p2]; simpl in *; [|exact H1].
  destruct (datastore_get key); exact H1.
Qed.

(** * Concrete vectors *)

(** C6: the four vectors of the test suite. *)
Theorem C6_concrete_vectors (unicode_decimal : N -> option N)
    (elems : list PathElement) :
  get_resource_id_from_key
    (mkKey [TStr (text "UserEntity"); TStr (text "does_not_exist")] elems)
  = Return (text "VXNlckVudGl0eR5kb2VzX25vdF9leGlzdA") /\
  get_resource_id_from_key
    (mkKey [TStr (text "UserEntity"); TInt 1] elems)
  = Return (text "VXNlckVudGl0eR4fMQ") /\
  (exists key,
     fst (get_key_from_resource_id unicode_decimal
            (text "VXNlckVudGl0eR5kb2VzX25vdF9leGlzdA") fresh_process)
     = Return key /\
     flat_path key = [TStr (text "UserEntity"); TStr (text "does_not_exist")]) /\
  (exists key,
     fst (get_key_from_resource_id unicode_decimal
            (text "RXZlbnQeHzU2OTE5MDI1OTA0NTE3MTI") fresh_process)
     = Return key /\
     flat_path key = [TStr (text "Event"); TInt 5691902590451712] /\
     (2 ^ 32 <= 5691902590451712)%Z).
Proof.
  split; [reflexivity|]. split; [reflexivity|]. split.
  - eexists. split; [vm_compute; reflexivity|reflexivity].
  - eexists. split; [vm_compute; reflexivity|]. split; [reflexivity|].
    vm_compute. discriminate.
Qed.

(** * The decoding loop *)

Section DecodeLoop.

Variable unicode_decimal : N -> option N.

Lemma py_int_raises_ValueError (s : pystr) (c : ExcClass) (m : option pystr) :
  py_int unicode_decimal s = Raise c m -> c = ValueError /\ m = None.
Proof.
  unfold py_int.
  match goal with
  | |- context [match ?e with pair _ _ => _ end] => destruct e as [negative a]
  end.
  destruct (parse_unsigned a); intros H; inversion H; auto.
Qed.

Lemma tag_bit_raises (bit : pystr) (c : ExcClass) (m : option pystr) :
  tag_bit unicode_decimal bit = Raise c m ->
  m = None /\
  ((c = IndexError /\ bit = []) \/
   (c = ValueError /\ exists tail,
      bit = INTPREFIX :: tail /\
      py_int unicode_decimal tail = Raise ValueError None)).
Proof.
  destruct bit as [|x tail]; simpl.
  - intros H; inversion H; auto.
  - destruct (x =? INTPREFIX) eqn:E; [|discriminate].
    apply N.eqb_eq in E; subst x.
    destruct (py_int unicode_decimal tail) as [n|c' m'] eqn:Hint; simpl;
      [discriminate|].
    intros H; inversion H; subst.
    destruct (py_int_raises_ValueError _ Hint) as [-> ->].
    split; [reflexivity|]. right. split; [reflexivity|].
    exists tail. auto.
Qed.

(** The loop applies [tag_bit] to every token in turn and stops at the
    first one that raises. *)
Lemma bits_loop_step (bit : pystr) (rest : list pystr) (acc : list Token) :
  bits_loop unicode_decimal (bit :: rest) acc =
    (tok <- tag_bit unicode_decimal bit ;;
     bits_loop unicode_decimal rest (acc ++ [tok])).
Proof.
  destruct bit as [|x tail]; simpl; [reflexivity|].
  destruct (x =? INTPREFIX); [|reflexivity].
  destruct (py_int unicode_decimal tail); reflexivity.
Qed.

Lemma bits_loop_returns (bits : list pystr) :
  forall acc toks,
    Forall2 (tagged unicode_decimal) bits toks ->
    bits_loop unicode_decimal bits acc = Return (acc ++ toks).
Proof.
  induction bits as [|bit rest IH]; intros acc toks H; inversion H; subst.
  - simpl. now rewrite app_nil_r.
  - rewrite bits_loop_step.
    match goal with Ht : tagged _ _ _ |- _ => rewrite Ht end. simpl.
    rewrite (IH _ _ ltac:(eassumption)), <- app_assoc. reflexivity.
Qed.

Lemma bits_loop_returned (bits : list pystr) :
  forall acc r,
    bits_loop unicode_decimal bits acc = Return r ->
    exists toks, r = acc ++ toks /\ Forall2 (tagged unicode_decimal) bits toks.
Proof.
  induction bits as [|bit rest IH]; intros acc r H.
  - simpl in H. inversion H; subst. exists []. rewrite app_nil_r.
    split; [reflexivity|constructor].
  - rewrite bits_loop_step in H.
    destruct (tag_bit unicode_decimal bit) as [tok|c m] eqn:Ht; simpl in H;
      [|discriminate].
    destruct (IH _ _ H) as [toks [-> HF]].
    exists (tok :: toks). rewrite <- app_assoc. split; [reflexivity|].
    constructor; assumption.
Qed.

Lemma bits_loop_raised (bits : list pystr) :
  forall acc c m,
    bits_loop unicode_decimal bits acc = Raise c m ->
    exists bit, In bit bits /\ tag_bit unicode_decimal bit = Raise c m.
Proof.
  induction bits as [|bit rest IH]; intros acc c m H.
  - discriminate H.
  - rewrite bits_loop_step in H.
    destruct (tag_bit unicode_decimal bit) as [tok|c' m'] eqn:Ht; simpl in H.
    + destruct (IH _ _ _ H) as [b [Hin Hb]]. exists b. split; [now right|exact Hb].
    + inversion H; subst. exists bit. split; [now left|exact Ht].
Qed.


End DecodeLoop.



(** * Error unification in [get_entity_by_resource_id] *)

Lemma decode_payload_raises (s : pystr) (c : ExcClass) (m : option pystr) :
  decode_payload s = Raise c m ->
  c = ValueError \/ c = InvalidIdException \/ c = UnicodeDecodeError.
Proof.
  unfold decode_payload, urlsafe_b64decode, _bytes_from_decode_data,
    a2b_base64, bytes_decode.
  destruct (forallb _ s); simpl.
  - destruct (a2b_loop _ _ _ _) as [bin|]; simpl.
    + destruct (utf8_decode bin); simpl; intros H; inversion H; auto.
    + intros H; inversion H; auto.
  - intros H; inversion H; auto.
Qed.

Lemma decode_tokens_raises (d : N -> option N) (rid : pystr)
    (c : ExcClass) (m : option pystr) :
  decode_tokens d rid = Raise c m ->
  caught_by resolve_handlers c = true.
Proof.
  unfold decode_tokens.
  destruct (decode_payload (restore_padding rid)) as [decoded|c' m'] eqn:Hp;
    simpl; intros H.
  - destruct (bits_loop_raised _ _ _ H) as [bit [_ Hb]].
    destruct (tag_bit_raises _ _ Hb) as [_ [[-> _]|[-> _]]]; reflexivity.
  - inversion H; subst.
    destruct (decode_payload_raises _ Hp) as [->|[->| ->]]; reflexivity.
Qed.

Lemma _parse_path_raises (args : list Token) (c : ExcClass) (m : option pystr) :
  _parse_path args = Raise c m -> c = ValueError.
Proof.
  revert c m.
  assert (H : (forall c m, _parse_path args = Raise c m -> c = ValueError) /\
              (forall t c m, _parse_path (t :: args) = Raise c m ->
                             c = ValueError)); [|exact (proj1 H)].
  induction args as [|i rest [IH1 IH2]].
  - split; [discriminate|].
    intros [kind|n] c m H; simpl in H; inversion H; reflexivity.
  - split; [exact (IH2 i)|].
    intros [kind|n] c m H; simpl in H; [|inversion H; reflexivity].
    destruct (_parse_path rest) as [elems|c' m'] eqn:Hrest; simpl in H;
      [discriminate|].
    inversion H; subst. exact (IH1 _ _ eq_refl).
Qed.

Lemma datastore_Key_raises (args : list Token) (c : ExcClass) (m : option pystr) :
  datastore_Key args = Raise c m -> c = ValueError.
Proof.
  unfold datastore_Key. destruct args as [|t rest].
  - intros H; inversion H; reflexivity.
  - destruct (_parse_path (t :: rest)) as [elems|c' m'] eqn:Hp; simpl;
      [discriminate|].
    intros H; inversion H; subst. exact (_parse_path_raises _ Hp).
Qed.

(** With a client at hand, [Client()] succeeds and leaves one cached. *)
Lemma Client_available (p : Process) :
  client_available p = true ->
  exists p', Client p = (Return tt, p') /\ client_available p' = true.
Proof.
  unfold client_available, Client, datastore_Client.
  destruct p as [[h|] n c]; simpl.
  - intros _. eexists; split; reflexivity.
  - intros ->. eexists; split; reflexivity.
Qed.

Lemma get_key_available (d : N -> option N) (rid : pystr) (p : Process) :
  client_available p = true ->
  (exists c m p',
     get_key_from_resource_id d rid p = (Raise c m, p') /\
     caught_by resolve_handlers c = true) \/
  (exists key p',
     get_key_from_resource_id d rid p = (Return key, p') /\
     client_available p' = true).
Proof.
  intros Hav. unfold get_key_from_resource_id, pbind, lift.
  destruct (decode_tokens d rid) as [toks|c m] eqn:Ht.
  - unfold Client_key, pbind, lift.
    destruct (Client_available _ Hav) as [p' [-> Hav']].
    destruct (datastore_Key toks) as [key|c m] eqn:Hk.
    + right. exists key, p'. auto.
    + left. exists c, m, p'. split; [reflexivity|].
      now rewrite (datastore_Key_raises _ Hk).
  - left. exists c, m, p. split; [reflexivity|].
    exact (decode_tokens_raises _ _ Ht).
Qed.

Lemma pystr_eqb_eq (a b : pystr) : pystr_eqb a b = true <-> a = b.
Proof.
  unfold pystr_eqb. destruct (list_eq_dec N.eq_dec a b); split; auto.
  discriminate.
Qed.

Lemma carries_resource_id (rid : pystr) : carries (_invalid_id_err rid) rid.
Proof.
  exists (text "'"), (text "' is not a valid resource id.'"). reflexivity.
Qed.

Section Resolve.

Variable unicode_decimal : N -> option N.
Variable Entity : Type.
Variable datastore_get : Key -> Outcome (option Entity).

Lemma resolve_unfold (expected_kind rid : pystr) (p : Process) :
  rid <> [] ->
  fst (get_entity_by_resource_id unicode_decimal datastore_get
            expected_kind rid p) =
    try_except (fst (resolve_body unicode_decimal datastore_get
                       expected_kind rid p))
      resolve_handlers InvalidIdException (_invalid_id_err rid).
Proof.
  intros Hne. unfold get_entity_by_resource_id.
  destruct rid as [|x rid']; [contradiction|].
  destruct (resolve_body _ _ _ _ _); reflexivity.
Qed.

(** No exception of the four handled families leaves the resolver other
    than the unifying one. *)
Lemma resolve_never_raw (expected_kind rid : pystr) (p : Process)
    (c : ExcClass) (m : option pystr) :
  rid <> [] ->
  fst (get_entity_by_resource_id unicode_decimal datastore_get
            expected_kind rid p) = Raise c m ->
  caught_by resolve_handlers c = true ->
  c = InvalidIdException /\ m = Some (_invalid_id_err rid).
Proof.
  intros Hne. rewrite (resolve_unfold _ _ Hne). unfold try_except.
  destruct (fst (resolve_body _ _ _ _ _)) as [r|c' m']; [discriminate|].
  destruct (caught_by resolve_handlers c') eqn:Hc; intros H; inversion H;
    subst; auto.
  intros Hc'. congruence.
Qed.

(** C2: with a non-empty resource id and a client at hand, any failure
    of decoding or key construction and any kind that is not the
    expected one end in the unifying [InvalidIdException], whose message
    holds the resource id; a plain [ValueError] never leaves the
    resolver; and when the key is of the expected kind the result of the
    lookup is returned as it is. *)
Theorem C2_error_unification (expected_kind rid : pystr) (p : Process) :
  rid <> [] ->
  client_available p = true ->
  (forall c m,
     fst (get_key_from_resource_id unicode_decimal rid p) = Raise c m ->
     fst (get_entity_by_resource_id unicode_decimal datastore_get
            expected_kind rid p) = unifying_error rid) /\
  (forall key,
     fst (get_key_from_resource_id unicode_decimal rid p) = Return key ->
     Key_kind key <> Return expected_kind ->
     fst (get_entity_by_resource_id unicode_decimal datastore_get
            expected_kind rid p) = unifying_error rid) /\
  (forall key found,
     fst (get_key_from_resource_id unicode_decimal rid p) = Return key ->
     Key_kind key = Return expected_kind ->
     datastore_get key = Return found ->
     fst (get_entity_by_resource_id unicode_decimal datastore_get
            expected_kind rid p) = Return found) /\
  (forall m, fst (get_entity_by_resource_id unicode_decimal datastore_get
            expected_kind rid p) <> Raise ValueError m) /\
  carries (_invalid_id_err rid) rid.
Proof.
  intros Hne Hav.
  assert (Hbody : forall o,
    fst (resolve_body unicode_decimal datastore_get expected_kind rid p) = o ->
    fst (get_entity_by_resource_id unicode_decimal datastore_get
            expected_kind rid p) =
      try_except o resolve_handlers InvalidIdException (_invalid_id_err rid)).
  { intros o <-. exact (resolve_unfold _ p Hne). }
  split; [|split; [|split; [|split]]].
  - intros c m Hd.
    destruct (get_key_available unicode_decimal rid p Hav)
      as [[c' [m' [p' [Hg Hc]]]]|[key [p' [Hg _]]]];
      rewrite Hg in Hd; simpl in Hd; [|discriminate].
    inversion Hd; subst.
    rewrite (Hbody (Raise c m)).
    + unfold try_except. now rewrite Hc.
    + unfold resolve_body, pbind. now rewrite Hg.
  - intros key Hd Hkind.
    destruct (get_key_available unicode_decimal rid p Hav)
      as [[c' [m' [p' [Hg Hc]]]]|[key' [p' [Hg _]]]];
      rewrite Hg in Hd; simpl in Hd; [discriminate|].
    inversion Hd; subst key'.
    destruct (Key_kind key) as [kind|c m] eqn:Hk.
    + rewrite (Hbody (Raise ValueError (Some (_kind_err expected_kind kind)))).
      * reflexivity.
      * unfold resolve_body, pbind, lift. rewrite Hg, Hk.
        destruct (pystr_eqb kind expected_kind) eqn:E; [|reflexivity].
        apply pystr_eqb_eq in E. congruence.
    + assert (c = IndexError /\ m = None) as [-> ->].
      { unfold Key_kind in Hk. destruct (rev (path key)); inversion Hk; auto. }
      rewrite (Hbody (Raise IndexError None)); [reflexivity|].
      unfold resolve_body, pbind, lift. now rewrite Hg, Hk.
  - intros key found Hd Hkind Hget.
    destruct (get_key_available unicode_decimal rid p Hav)
      as [[c' [m' [p' [Hg Hc]]]]|[key' [p' [Hg Hav']]]];
      rewrite Hg in Hd; simpl in Hd; [discriminate|].
    inversion Hd; subst key'.
    rewrite (Hbody (Return found)); [reflexivity|].
    unfold resolve_body, pbind, lift. rewrite Hg, Hkind.
    destruct (pystr_eqb expected_kind expected_kind) eqn:E.
    + simpl. unfold Client_get, pbind, lift.
      destruct (Client_available _ Hav') as [p'' [-> _]].
      now rewrite Hget.
    + assert (pystr_eqb expected_kind expected_kind = true)
        by now apply pystr_eqb_eq.
      congruence.
  - intros m H.
    destruct (resolve_never_raw _ _ Hne H eq_refl) as [Hc _]. discriminate Hc.
  - apply carries_resource_id.
Qed.

End Resolve.

Lemma C2_error_unification_witness :
  fst (get_entity_by_resource_id ascii_digits_only
         (fun _ => Return (@None nat)) (text "OtherEntity")
         (text "VXNlckVudGl0eR4fMQ") fresh_process)
  = unifying_error (text "VXNlckVudGl0eR4fMQ").
Proof.
  refine (proj1 (proj2 (@C2_error_unification ascii_digits_only nat
            (fun _ => Return None) (text "OtherEntity")
            (text "VXNlckVudGl0eR4fMQ") fresh_process _ _))
            (mkKey [TStr (text "UserEntity"); TInt 1]
               [mkPathElement (text "UserEntity") (Some (TInt 1))]) _ _).
  - discriminate.
  - reflexivity.
  - reflexivity.
  - vm_compute. discriminate.
Defined.

(** * Padding and the base64 step *)

Ltac Zify.zify_post_hook ::= Z.to_euclidean_division_equations.

Lemma restore_padding_cases (rid : pystr) :
  let m := N.of_nat (length rid) mod 4 in
  (m = 0 -> restore_padding rid = rid) /\
  (m = 1 -> restore_padding rid = rid ++ [BASE64_PAD; BASE64_PAD; BASE64_PAD]) /\
  (m = 2 -> restore_padding rid = rid ++ [BASE64_PAD; BASE64_PAD]) /\
  (m = 3 -> restore_padding rid = rid ++ [BASE64_PAD]).
Proof.
  unfold restore_padding. repeat split; intros ->; reflexivity.
Qed.

Lemma restore_padding_multiple_of_4 (rid : pystr) :
  N.of_nat (length (restore_padding rid)) mod 4 = 0.
Proof.
  destruct (restore_padding_cases rid) as [H0 [H1 [H2 H3]]].
  assert (Hm : N.of_nat (length rid) mod 4 < 4) by lia.
  destruct (N.of_nat (length rid) mod 4) as [|[[|q|]|[|q|]|]] eqn:E;
    try lia.
  - now rewrite H0.
  - rewrite H3, length_app by reflexivity. simpl. lia.
  - rewrite H2, length_app by reflexivity. simpl. lia.
  - rewrite H1, length_app by reflexivity. simpl. lia.
Qed.

Lemma index_of_In (c : N) (l : list N) :
  forall i v, index_of c l i = Some v -> In c l.
Proof.
  induction l as [|x l IH]; simpl; intros i v H; [discriminate|].
  destruct (x =? c) eqn:E.
  - left. now apply N.eqb_eq.
  - right. exact (IH _ _ H).
Qed.

Lemma table_digit_ascii (c v : N) :
  table_a2b_base64 c = Some v -> c < 128 /\ c <> BASE64_PAD.
Proof.
  intros H. apply index_of_In in H.
  assert (Hall : forallb (fun x => (x <? 128) && negb (x =? BASE64_PAD))
                   table_b2a_base64 = true) by reflexivity.
  rewrite forallb_forall in Hall. specialize (Hall _ H).
  apply andb_true_iff in Hall. destruct Hall as [H1 H2].
  apply N.ltb_lt in H1. apply negb_true_iff, N.eqb_neq in H2. auto.
Qed.

Lemma is_b64_digit_value (c : N) :
  is_b64_digit c = true ->
  exists v, table_a2b_base64 (_urlsafe_decode_translation c) = Some v /\
            (_urlsafe_decode_translation c =? BASE64_PAD) = false /\
            (c <? 128) = true.
Proof.
  unfold is_b64_digit.
  destruct (table_a2b_base64 (_urlsafe_decode_translation c)) as [v|] eqn:E;
    [|discriminate].
  intros _. exists v. split; [reflexivity|].
  destruct (table_digit_ascii _ E) as [Hlt Hne].
  split; [now apply N.eqb_neq|].
  apply N.ltb_lt. unfold _urlsafe_decode_translation in Hlt.
  destruct (c =? 45) eqn:E1; [apply N.eqb_eq in E1; lia|].
  destruct (c =? 95) eqn:E2; [apply N.eqb_eq in E2; lia|].
  exact Hlt.
Qed.

Lemma emit_None (b : N) : emit b None = None.
Proof. reflexivity. Qed.

Lemma emit_Some (b : N) (o : option pybytes) :
  (exists bin, o = Some bin) -> exists bin, emit b o = Some bin.
Proof. intros [bin ->]. now exists (b :: bin). Qed.

(** One digit moves the decoder to the next position of the quad. *)
Lemma a2b_loop_digit (c v : N) (rest : pybytes) (q l pads : N) :
  table_a2b_base64 c = Some v -> (c =? BASE64_PAD) = false ->
  a2b_loop (c :: rest) q l pads =
    if q =? 0 then a2b_loop rest 1 v 0
    else if q =? 1 then
      emit (N.lor (N.shiftl l 2) (N.shiftr v 4)) (a2b_loop rest 2 (N.land v 15) 0)
    else if q =? 2 then
      emit (N.lor (N.shiftl l 4) (N.shiftr v 2)) (a2b_loop rest 3 (N.land v 3) 0)
    else emit (N.lor (N.shiftl l 6) v) (a2b_loop rest 0 0 0).
Proof. intros Hv Hp. simpl. now rewrite Hp, Hv. Qed.

Lemma quad_pos_cases (q : N) : q < 4 -> q = 0 \/ q = 1 \/ q = 2 \/ q = 3.
Proof. lia. Qed.

(** A run of digits followed by input on which the decoder fails: the
    decoder fails. *)
Lemma a2b_digits_fail (ds : pystr) (rest : pybytes) :
  forallb is_b64_digit ds = true ->
  forall q l pads, q < 4 ->
    (forall l' pads',
       a2b_loop rest ((q + N.of_nat (length ds)) mod 4) l' pads' = None) ->
    a2b_loop (map _urlsafe_decode_translation ds ++ rest) q l pads = None.
Proof.
  induction ds as [|c ds IH]; intros Hds q l pads Hq Hrest.
  - simpl in *. replace ((q + 0) mod 4) with q in Hrest by lia. apply Hrest.
  - simpl in Hds. apply andb_true_iff in Hds. destruct Hds as [Hc Hds].
    destruct (is_b64_digit_value _ Hc) as [v [Hv [Hp _]]].
    change (map _urlsafe_decode_translation (c :: ds) ++ rest)
      with (_urlsafe_decode_translation c
              :: (map _urlsafe_decode_translation ds ++ rest)).
    rewrite (@a2b_loop_digit _ v _ q l pads Hv Hp).
    assert (Hnext : forall q', q' < 4 -> q' = (q + 1) mod 4 ->
              forall l1 p1,
                a2b_loop (map _urlsafe_decode_translation ds ++ rest) q' l1 p1
                = None).
    { intros q' Hq' Eq' l1 p1. apply (IH Hds); [exact Hq'|].
      intros l' pads'.
      replace ((q' + N.of_nat (length ds)) mod 4)
        with ((q + N.of_nat (length (c :: ds))) mod 4);
        [apply Hrest|simpl length; lia]. }
    destruct (quad_pos_cases Hq) as [->|[->|[->| ->]]]; simpl.
    + apply Hnext; reflexivity.
    + rewrite Hnext; reflexivity.
    + rewrite Hnext; reflexivity.
    + rewrite Hnext; reflexivity.
Qed.

(** A run of digits followed by input the decoder accepts: the decoder
    accepts. *)
Lemma a2b_digits_succeed (ds : pystr) (rest : pybytes) :
  forallb is_b64_digit ds = true ->
  forall q l pads, q < 4 ->
    (forall l' pads', exists bin,
       a2b_loop rest ((q + N.of_nat (length ds)) mod 4) l' pads' = Some bin) ->
    exists bin,
      a2b_loop (map _urlsafe_decode_translation ds ++ rest) q l pads = Some bin.
Proof.
  induction ds as [|c ds IH]; intros Hds q l pads Hq Hrest.
  - simpl in *. replace ((q + 0) mod 4) with q in Hrest by lia. apply Hrest.
  - simpl in Hds. apply andb_true_iff in Hds. destruct Hds as [Hc Hds].
    destruct (is_b64_digit_value _ Hc) as [v [Hv [Hp _]]].
    change (map _urlsafe_decode_translation (c :: ds) ++ rest)
      with (_urlsafe_decode_translation c
              :: (map _urlsafe_decode_translation ds ++ rest)).
    rewrite (@a2b_loop_digit _ v _ q l pads Hv Hp).
    assert (Hnext : forall q', q' < 4 -> q' = (q + 1) mod 4 ->
              forall l1 p1, exists bin,
                a2b_loop (map _urlsafe_decode_translation ds ++ rest) q' l1 p1
                = Some bin).
    { intros q' Hq' Eq' l1 p1. apply (IH Hds); [exact Hq'|].
      intros l' pads'.
      replace ((q' + N.of_nat (length ds)) mod 4)
        with ((q + N.of_nat (length (c :: ds))) mod 4);
        [apply Hrest|simpl length; lia]. }
    destruct (quad_pos_cases Hq) as [->|[->|[->| ->]]]; simpl.
    + apply Hnext; reflexivity.
    + apply emit_Some, Hnext; reflexivity.
    + apply emit_Some, Hnext; reflexivity.
    + apply emit_Some, Hnext; reflexivity.
Qed.

Lemma is_b64_digit_ascii (ds : pystr) :
  forallb is_b64_digit ds = true -> is_ascii ds = true.
Proof.
  unfold is_ascii. intros H. apply forallb_forall. intros c Hin.
  rewrite forallb_forall in H.
  now destruct (is_b64_digit_value _ (H _ Hin)) as [v [_ [_ Hc]]].
Qed.

Lemma is_ascii_app (a b : pystr) :
  is_ascii (a ++ b) = is_ascii a && is_ascii b.
Proof. apply forallb_app. Qed.

Lemma restore_padding_ascii (rid : pystr) :
  is_ascii (restore_padding rid) = is_ascii rid.
Proof.
  destruct (restore_padding_cases rid) as [H0 [H1 [H2 H3]]].
  assert (Hm : N.of_nat (length rid) mod 4 < 4) by lia.
  destruct (quad_pos_cases Hm) as [E|[E|[E|E]]].
  - now rewrite (H0 E).
  - rewrite (H1 E), is_ascii_app. simpl. now rewrite andb_true_r.
  - rewrite (H2 E), is_ascii_app. simpl. now rewrite andb_true_r.
  - rewrite (H3 E), is_ascii_app. simpl. now rewrite andb_true_r.
Qed.

(** The base64 step, by what the library calls do. *)
Lemma decode_payload_ascii (s : pystr) :
  is_ascii s = true ->
  decode_payload s =
    match a2b_loop (map _urlsafe_decode_translation s) 0 0 0 with
    | None => Raise InvalidIdException
                (Some (text "Could not base64 decode resource_id"))
    | Some bin => bytes_decode bin
    end.
Proof.
  intros Ha. unfold decode_payload, urlsafe_b64decode, _bytes_from_decode_data,
    a2b_base64. unfold is_ascii in Ha. rewrite Ha. simpl.
  destruct (a2b_loop _ 0 0 0) as [bin|]; simpl; [|reflexivity].
  unfold bytes_decode. destruct (utf8_decode bin); reflexivity.
Qed.

Lemma decode_payload_not_ascii (s : pystr) :
  is_ascii s = false ->
  decode_payload s =
    Raise ValueError
      (Some (text "string argument should contain only ASCII characters")).
Proof.
  intros Ha. unfold decode_payload, urlsafe_b64decode, _bytes_from_decode_data.
  unfold is_ascii in Ha. now rewrite Ha.
Qed.

Lemma a2b_loop_pad (rest : pybytes) (q l pads : N) :
  a2b_loop (BASE64_PAD :: rest) q l pads =
    if (2 <=? q) && (4 <=? q + (pads + 1)) then Some []
    else a2b_loop rest q l (if 2 <=? q then pads + 1 else pads).
Proof. reflexivity. Qed.

Lemma a2b_two_pads (l pads : N) :
  a2b_loop [BASE64_PAD; BASE64_PAD] 2 l pads = Some [].
Proof.
  rewrite a2b_loop_pad. change (2 <=? 2) with true. cbv iota. rewrite andb_true_l.
  destruct (4 <=? 2 + (pads + 1)) eqn:E4; [reflexivity|].
  rewrite a2b_loop_pad. change (2 <=? 2) with true. cbv iota. rewrite andb_true_l.
  replace (4 <=? 2 + (pads + 1 + 1)) with true; [reflexivity|].
  symmetry. apply N.leb_le. lia.
Qed.

Lemma a2b_one_pad (l pads : N) :
  a2b_loop [BASE64_PAD] 3 l pads = Some [].
Proof.
  rewrite a2b_loop_pad. change (2 <=? 3) with true. cbv iota. rewrite andb_true_l.
  replace (4 <=? 3 + (pads + 1)) with true; [reflexivity|].
  symmetry. apply N.leb_le. lia.
Qed.

(** Digits only: the decoder fails exactly on a length that is 1 modulo 4. *)
Lemma a2b_digits_only (rid : pystr) :
  forallb is_b64_digit rid = true ->
  (N.of_nat (length rid) mod 4 = 1 ->
   a2b_loop (map _urlsafe_decode_translation (restore_padding rid)) 0 0 0
   = None) /\
  (N.of_nat (length rid) mod 4 <> 1 ->
   exists bin,
     a2b_loop (map _urlsafe_decode_translation (restore_padding rid)) 0 0 0
     = Some bin).
Proof.
  intros Hds. destruct (restore_padding_cases rid) as [H0 [H1 [H2 H3]]].
  assert (Hm : N.of_nat (length rid) mod 4 < 4) by lia.
  split.
  - intros E. rewrite (H1 E), map_app.
    apply (a2b_digits_fail _ _ Hds); [lia|].
    intros l' pads'. rewrite N.add_0_l, E. reflexivity.
  - intros Hne. destruct (quad_pos_cases Hm) as [E|[E|[E|E]]];
      [| contradiction | |].
    + rewrite (H0 E), <- (app_nil_r (map _ rid)).
      apply (a2b_digits_succeed _ _ Hds); [lia|].
      intros l' pads'. rewrite N.add_0_l, E. eexists; reflexivity.
    + rewrite (H2 E), map_app.
      apply (a2b_digits_succeed _ _ Hds); [lia|].
      intros l' pads'. rewrite N.add_0_l, E. eexists. apply a2b_two_pads.
    + rewrite (H3 E), map_app.
      apply (a2b_digits_succeed _ _ Hds); [lia|].
      intros l' pads'. rewrite N.add_0_l, E. eexists. apply a2b_one_pad.
Qed.

Lemma decode_tokens_payload_raises (d : N -> option N) (rid : pystr)
    (c : ExcClass) (m : option pystr) (p : Process) :
  decode_payload (restore_padding rid) = Raise c m ->
  get_key_from_resource_id d rid p = (Raise c m, p).
Proof.
  intros H. unfold get_key_from_resource_id, pbind, lift, decode_tokens.
  now rewrite H.
Qed.

Lemma digits_1_mod_4_rejected (rid : pystr) :
  forallb is_b64_digit rid = true ->
  N.of_nat (length rid) mod 4 = 1 ->
  decode_payload (restore_padding rid) =
    Raise InvalidIdException (Some (text "Could not base64 decode resource_id")).
Proof.
  intros Hds E. rewrite decode_payload_ascii.
  - now rewrite (proj1 (a2b_digits_only rid Hds) E).
  - rewrite restore_padding_ascii. now apply is_b64_digit_ascii.
Qed.

(** C7 (amended): the padding put back makes the length a multiple of 4,
    with 0, 2 or 1 pad characters for a length that is 0, 2 or 3 modulo 4
    and never more than 3; for a length that is 1 modulo 4 three pads are
    added, and when every character is a base64 digit the decoder fails
    with [InvalidIdException]. *)
Theorem C7_padding_restoration (rid : pystr) :
  N.of_nat (length (restore_padding rid)) mod 4 = 0 /\
  (exists k, (k <= 3)%nat /\ restore_padding rid = rid ++ repeat BASE64_PAD k) /\
  (N.of_nat (length rid) mod 4 = 0 -> restore_padding rid = rid) /\
  (N.of_nat (length rid) mod 4 = 2 ->
   restore_padding rid = rid ++ [BASE64_PAD; BASE64_PAD]) /\
  (N.of_nat (length rid) mod 4 = 3 ->
   restore_padding rid = rid ++ [BASE64_PAD]) /\
  (N.of_nat (length rid) mod 4 = 1 ->
   restore_padding rid = rid ++ [BASE64_PAD; BASE64_PAD; BASE64_PAD] /\
   (forallb is_b64_digit rid = true ->
    forall unicode_decimal p,
      get_key_from_resource_id unicode_decimal rid p =
        (Raise InvalidIdException
           (Some (text "Could not base64 decode resource_id")), p))).
Proof.
  destruct (restore_padding_cases rid) as [H0 [H1 [H2 H3]]].
  split; [apply restore_padding_multiple_of_4|].
  split.
  { assert (Hm : N.of_nat (length rid) mod 4 < 4) by lia.
    destruct (quad_pos_cases Hm) as [E|[E|[E|E]]].
    - exists 0%nat. rewrite (H0 E), app_nil_r. split; [lia|reflexivity].
    - exists 3%nat. rewrite (H1 E). split; [lia|reflexivity].
    - exists 2%nat. rewrite (H2 E). split; [lia|reflexivity].
    - exists 1%nat. rewrite (H3 E). split; [lia|reflexivity]. }
  split; [exact H0|]. split; [exact H2|]. split; [exact H3|].
  intros E. split; [exact (H1 E)|].
  intros Hds d p. apply decode_tokens_payload_raises.
  now apply digits_1_mod_4_rejected.
Qed.

Lemma C7_padding_restoration_witness :
  get_key_from_resource_id ascii_digits_only (text "VXNlckVudGl0eR5k3")
    fresh_process
  = (Raise InvalidIdException
       (Some (text "Could not base64 decode resource_id")), fresh_process).
Proof.
  refine (proj2 (proj2 (proj2 (proj2 (proj2 (proj2
            (C7_padding_restoration (text "VXNlckVudGl0eR5k3")))))) _) _
            ascii_digits_only fresh_process); reflexivity.
Defined.

(** C7, as stated, fails on a length that is 1 modulo 4 when a character
    lies outside the alphabet: the decoder skips it, and ["QUJD!"] decodes
    to the partial key of kind ["ABC"]. *)
Lemma C7_length_1_mod_4_accepted :
  N.of_nat (length (text "QUJD!")) mod 4 = 1 /\
  fst (get_key_from_resource_id ascii_digits_only (text "QUJD!") fresh_process)
  = Return (mkKey [TStr (text "ABC")] [mkPathElement (text "ABC") None]).
Proof. split; reflexivity. Qed.

Lemma decode_translation_pad (c : N) :
  (_urlsafe_decode_translation c =? BASE64_PAD) = (c =? BASE64_PAD).
Proof.
  unfold _urlsafe_decode_translation.
  destruct (c =? 45) eqn:E1; [apply N.eqb_eq in E1; now subst|].
  destruct (c =? 95) eqn:E2; [apply N.eqb_eq in E2; now subst|].
  reflexivity.
Qed.

(** The decoder skips what is neither a digit nor the pad: taking such
    characters out of its input changes nothing, in whatever state. *)
Lemma a2b_loop_skips (s : pystr) :
  forall q l p,
    a2b_loop (map _urlsafe_decode_translation (filter is_significant s)) q l p
    = a2b_loop (map _urlsafe_decode_translation s) q l p.
Proof.
  induction s as [|c s IH]; intros q l p; [reflexivity|].
  cbn [filter]. unfold is_significant at 1. unfold is_b64_digit.
  cbn [map a2b_loop]. rewrite decode_translation_pad.
  destruct (c =? BASE64_PAD) eqn:Hp.
  - rewrite orb_true_r. cbn [map a2b_loop]. rewrite decode_translation_pad, Hp.
    destruct ((2 <=? q) && (4 <=? q + (p + 1))); [reflexivity|apply IH].
  - rewrite orb_false_r.
    destruct (table_a2b_base64 (_urlsafe_decode_translation c)) as [v|] eqn:Hv.
    + cbn [map a2b_loop]. rewrite decode_translation_pad, Hp, Hv.
      destruct (q =? 0); [apply IH|].
      destruct (q =? 1); [now rewrite IH|].
      destruct (q =? 2); now rewrite IH.
    + apply IH.
Qed.

Lemma is_ascii_filter (f : N -> bool) (s : pystr) :
  is_ascii s = true -> is_ascii (filter f s) = true.
Proof.
  unfold is_ascii. rewrite !forallb_forall. intros H c Hc.
  apply filter_In in Hc. apply H, Hc.
Qed.

(** On an ASCII resource id the base64 step sees digits and pads only. *)
Lemma decode_payload_skips (s : pystr) :
  is_ascii s = true ->
  decode_payload s = decode_payload (filter is_significant s).
Proof.
  intros Ha.
  rewrite (decode_payload_ascii _ Ha),
    (decode_payload_ascii _ (is_ascii_filter is_significant _ Ha)).
  now rewrite a2b_loop_skips.
Qed.

(** C4 (amended): the outcomes of the base64 step.  A resource id with a
    character outside ASCII raises the plain [ValueError] of the library.
    On an ASCII one the step raises [InvalidIdException] exactly when
    [binascii] rejects the padded input, and otherwise returns the text or
    raises [UnicodeDecodeError].  When every character is a base64 digit,
    [binascii] rejects the input exactly when its length is 1 modulo 4.
    ASCII characters that are neither digits nor pads are skipped, not
    rejected: the step gives what it gives on the padded id with those
    characters taken out. *)
Theorem C4_base64_step_outcomes (rid : pystr) :
  (is_ascii rid = false ->
   decode_payload (restore_padding rid) =
     Raise ValueError
       (Some (text "string argument should contain only ASCII characters"))) /\
  (is_ascii rid = true ->
   (a2b_loop (map _urlsafe_decode_translation (restore_padding rid)) 0 0 0
    = None <->
    decode_payload (restore_padding rid) =
      Raise InvalidIdException
        (Some (text "Could not base64 decode resource_id"))) /\
   (forall c m,
      decode_payload (restore_padding rid) = Raise c m ->
      (c = InvalidIdException /\
       m = Some (text "Could not base64 decode resource_id")) \/
      (c = UnicodeDecodeError /\ m = None))) /\
  (forallb is_b64_digit rid = true ->
   (raises (decode_payload (restore_padding rid)) InvalidIdException <->
    N.of_nat (length rid) mod 4 = 1)) /\
  (is_ascii rid = true ->
   decode_payload (restore_padding rid)
   = decode_payload (filter is_significant (restore_padding rid)) /\
   forall unicode_decimal,
     decode_tokens unicode_decimal rid =
       (decoded <- decode_payload
                     (filter is_significant (restore_padding rid)) ;;
        bits_loop unicode_decimal (split SEPARATOR decoded) [])).
Proof.
  split; [|split; [|split]].
  - intros Ha. apply decode_payload_not_ascii.
    now rewrite restore_padding_ascii.
  - intros Ha. rewrite decode_payload_ascii
      by now rewrite restore_padding_ascii.
    destruct (a2b_loop _ 0 0 0) as [bin|]; unfold bytes_decode.
    + destruct (utf8_decode bin); split; try (split; discriminate);
        intros c m H; inversion H; auto.
    + split; [split; reflexivity|]. intros c m H; inversion H; auto.
  - intros Hds. split.
    + intros [m H].
      destruct (N.eq_dec (N.of_nat (length rid) mod 4) 1) as [E|E];
        [exact E|exfalso].
      destruct (proj2 (a2b_digits_only rid Hds) E) as [bin Hbin].
      rewrite decode_payload_ascii, Hbin in H
        by (rewrite restore_padding_ascii; now apply is_b64_digit_ascii).
      unfold bytes_decode in H. destruct (utf8_decode bin); discriminate H.
    + intros E. eexists. now apply digits_1_mod_4_rejected.
  - intros Ha.
    assert (H : decode_payload (restore_padding rid)
                = decode_payload (filter is_significant (restore_padding rid))).
    { apply decode_payload_skips. now rewrite restore_padding_ascii. }
    split; [exact H|]. intros d. unfold decode_tokens. now rewrite H.
Qed.

Lemma C4_base64_step_outcomes_witness :
  raises (decode_payload (restore_padding (text "VXNlckVudGl0eR5k3")))
    InvalidIdException /\
  decode_payload (restore_padding (text "QUJD!!!!"))
  = decode_payload (text "QUJD").
Proof.
  split.
  - apply (proj1 (proj2 (proj2
             (C4_base64_step_outcomes (text "VXNlckVudGl0eR5k3")))) eq_refl).
    reflexivity.
  - exact (proj1 (proj2 (proj2 (proj2
             (C4_base64_step_outcomes (text "QUJD!!!!")))) eq_refl)).
Defined.

(** C4, as stated, fails twice: ["QUJD!!!!"] holds characters outside the
    alphabet and is decoded all the same; and [InvalidIdException] is not
    the only error of the step, since the payload of ["_w"] is no UTF-8 and
    raises [UnicodeDecodeError], and a character outside ASCII raises a
    plain [ValueError]. *)
Lemma C4_invalid_alphabet_accepted :
  forallb (fun c => is_b64_digit c || (c =? BASE64_PAD)) (text "QUJD!!!!")
  = false /\
  decode_payload (restore_padding (text "QUJD!!!!")) = Return (text "ABC") /\
  get_key_from_resource_id ascii_digits_only (text "_w") fresh_process
  = (Raise UnicodeDecodeError None, fresh_process) /\
  get_key_from_resource_id ascii_digits_only [233] fresh_process
  = (Raise ValueError
       (Some (text "string argument should contain only ASCII characters")),
     fresh_process).
Proof. repeat split; reflexivity. Qed.

(** * Base64: decoding an encoding *)

Lemma forallb_range (n : nat) (P : N -> bool) :
  forallb P (map N.of_nat (seq 0 n)) = true ->
  forall x, x < N.of_nat n -> P x = true.
Proof.
  intros H x Hx. rewrite forallb_forall in H. apply H.
  rewrite <- (N2Nat.id x). apply in_map, in_seq. lia.
Qed.

(** The digit of a sextet decodes to the sextet. *)
Lemma b2a_char_decodes (v : N) :
  v < 64 ->
  (_urlsafe_encode_translation (b2a_char v) =? BASE64_PAD) = false /\
  table_a2b_base64
    (_urlsafe_decode_translation (_urlsafe_encode_translation (b2a_char v)))
  = Some v.
Proof.
  intros Hv.
  assert (H := forallb_range 64
    (fun v =>
       negb (_urlsafe_encode_translation (b2a_char v) =? BASE64_PAD) &&
       match table_a2b_base64
               (_urlsafe_decode_translation
                  (_urlsafe_encode_translation (b2a_char v))) with
       | Some w => w =? v
       | None => false
       end) eq_refl Hv).
  apply andb_true_iff in H. destruct H as [H1 H2].
  split; [now apply negb_true_iff|].
  destruct (table_a2b_base64 _) as [w|]; [|discriminate].
  apply N.eqb_eq in H2. now subst.
Qed.

(** The sextets of two neighbouring octets, and how the decoder puts the
    octets together again. *)
Lemma sextet_facts (a b : N) :
  a < 256 -> b < 256 ->
  N.shiftr a 2 < 64 /\
  N.lor (N.shiftl (N.land a 3) 4) (N.shiftr b 4) < 64 /\
  N.lor (N.shiftl (N.land a 15) 2) (N.shiftr b 6) < 64 /\
  N.land a 63 < 64 /\
  N.lor (N.shiftl (N.shiftr a 2) 2)
    (N.shiftr (N.lor (N.shiftl (N.land a 3) 4) (N.shiftr b 4)) 4) = a /\
  N.land (N.lor (N.shiftl (N.land a 3) 4) (N.shiftr b 4)) 15 = N.shiftr b 4 /\
  N.lor (N.shiftl (N.shiftr a 4) 4)
    (N.shiftr (N.lor (N.shiftl (N.land a 15) 2) (N.shiftr b 6)) 2) = a /\
  N.lor (N.shiftl (N.land (N.lor (N.shiftl (N.land a 15) 2) (N.shiftr b 6)) 3) 6)
    (N.land b 63) = b.
Proof.
  intros Ha Hb.
  pose (chk := fun a b : N =>
          (N.shiftr a 2 <? 64) &&
          (N.lor (N.shiftl (N.land a 3) 4) (N.shiftr b 4) <? 64) &&
          (N.lor (N.shiftl (N.land a 15) 2) (N.shiftr b 6) <? 64) &&
          (N.land a 63 <? 64) &&
          (N.lor (N.shiftl (N.shiftr a 2) 2)
             (N.shiftr (N.lor (N.shiftl (N.land a 3) 4) (N.shiftr b 4)) 4)
           =? a) &&
          (N.land (N.lor (N.shiftl (N.land a 3) 4) (N.shiftr b 4)) 15
           =? N.shiftr b 4) &&
          (N.lor (N.shiftl (N.shiftr a 4) 4)
             (N.shiftr (N.lor (N.shiftl (N.land a 15) 2) (N.shiftr b 6)) 2)
           =? a) &&
          (N.lor
             (N.shiftl
                (N.land (N.lor (N.shiftl (N.land a 15) 2) (N.shiftr b 6)) 3) 6)
             (N.land b 63) =? b)).
  assert (Hall : forallb (fun a => forallb (chk a) (map N.of_nat (seq 0 256)))
                   (map N.of_nat (seq 0 256)) = true)
    by (vm_compute; reflexivity).
  assert (H := forallb_range 256 _ Hall Ha). cbv beta in H.
  assert (H' := forallb_range 256 _ H Hb). unfold chk in H'.
  repeat (apply andb_true_iff in H'; destruct H' as [H' ?]).
  repeat match goal with
         | Hx : (_ <? _) = true |- _ => apply N.ltb_lt in Hx
         | Hx : (_ =? _) = true |- _ => apply N.eqb_eq in Hx
         end.
  repeat split; assumption.
Qed.

Lemma list_ind3 {A} (P : list A -> Prop) :
  P [] -> (forall a, P [a]) -> (forall a b, P [a; b]) ->
  (forall a b c l, P l -> P (a :: b :: c :: l)) ->
  forall l, P l.
Proof.
  intros H0 H1 H2 H3.
  assert (H : forall l, P l /\ (forall a, P (a :: l)) /\
                        (forall a b, P (a :: b :: l))).
  { induction l as [|x l [IH0 [IH1 IH2]]].
    - auto.
    - split; [apply IH1|]. split; [intros a; apply IH2|].
      intros a b. apply H3, IH0. }
  intros l. apply H.
Qed.

Lemma remove_pad_digit (c : N) (rest : pybytes) :
  (c =? BASE64_PAD) = false -> remove_pad (c :: rest) = c :: remove_pad rest.
Proof. intros H. unfold remove_pad. simpl. now rewrite H. Qed.

Lemma restore_padding_quad (c1 c2 c3 c4 : N) (e : pystr) :
  restore_padding (c1 :: c2 :: c3 :: c4 :: e)
  = c1 :: c2 :: c3 :: c4 :: restore_padding e.
Proof.
  unfold restore_padding.
  replace (N.of_nat (length (c1 :: c2 :: c3 :: c4 :: e)) mod 4)
    with (N.of_nat (length e) mod 4) by (simpl length; lia).
  destruct (negb (N.of_nat (length e) mod 4 =? 0)); reflexivity.
Qed.

Lemma digit_of_value (c v : N) :
  table_a2b_base64 (_urlsafe_decode_translation c) = Some v ->
  is_b64_digit c = true.
Proof. intros H. unfold is_b64_digit. now rewrite H. Qed.

Lemma table_digit_not_pad (c v : N) :
  table_a2b_base64 c = Some v -> (c =? BASE64_PAD) = false.
Proof.
  intros H. apply N.eqb_neq. exact (proj2 (table_digit_ascii _ H)).
Qed.

(** Four digits are three octets. *)
Lemma a2b_loop_quad (c1 c2 c3 c4 v1 v2 v3 v4 : N) (rest : pybytes) (l p : N) :
  table_a2b_base64 c1 = Some v1 -> (c1 =? BASE64_PAD) = false ->
  table_a2b_base64 c2 = Some v2 -> (c2 =? BASE64_PAD) = false ->
  table_a2b_base64 c3 = Some v3 -> (c3 =? BASE64_PAD) = false ->
  table_a2b_base64 c4 = Some v4 -> (c4 =? BASE64_PAD) = false ->
  a2b_loop (c1 :: c2 :: c3 :: c4 :: rest) 0 l p =
    emit (N.lor (N.shiftl v1 2) (N.shiftr v2 4))
      (emit (N.lor (N.shiftl (N.land v2 15) 4) (N.shiftr v3 2))
         (emit (N.lor (N.shiftl (N.land v3 3) 6) v4)
            (a2b_loop rest 0 0 0))).
Proof.
  intros T1 P1 T2 P2 T3 P3 T4 P4.
  rewrite (@a2b_loop_digit c1 v1 _ 0 l p T1 P1). cbv iota beta. simpl (0 =? 0).
  cbv iota.
  rewrite (@a2b_loop_digit c2 v2 _ 1 v1 0 T2 P2). simpl (1 =? 0). simpl (1 =? 1).
  cbv iota.
  rewrite (@a2b_loop_digit c3 v3 _ 2 (N.land v2 15) 0 T3 P3).
  simpl (2 =? 0). simpl (2 =? 1). simpl (2 =? 2). cbv iota.
  rewrite (@a2b_loop_digit c4 v4 _ 3 (N.land v3 3) 0 T4 P4).
  simpl (3 =? 0). simpl (3 =? 1). simpl (3 =? 2). cbv iota.
  reflexivity.
Qed.

(** [urlsafe_b64decode] undoes [urlsafe_b64encode] with its padding
    removed and put back. *)
Lemma base64_round_trip (bs : pybytes) :
  Forall (fun b => b < 256) bs ->
  forallb is_b64_digit (remove_pad (urlsafe_b64encode bs)) = true /\
  a2b_loop
    (map _urlsafe_decode_translation
       (restore_padding (remove_pad (urlsafe_b64encode bs)))) 0 0 0
  = Some bs.
Proof.
  induction bs as [|a|a b|a b c bs IH] using list_ind3; intros Hbs.
  - split; reflexivity.
  - inversion Hbs as [|? ? Ha _]; subst.
    assert (H0 : (0:N) < 256) by lia.
    destruct (sextet_facts Ha H0) as [S1 [S2 [_ [_ [O1 _]]]]].
    change (N.shiftr 0 4) with 0 in *. rewrite N.lor_0_r in *.
    destruct (b2a_char_decodes S1) as [P1 T1].
    destruct (b2a_char_decodes S2) as [P2 T2].
    change (urlsafe_b64encode [a]) with
      [_urlsafe_encode_translation (b2a_char (N.shiftr a 2));
       _urlsafe_encode_translation (b2a_char (N.shiftl (N.land a 3) 4));
       BASE64_PAD; BASE64_PAD].
    rewrite (remove_pad_digit _ _ P1), (remove_pad_digit _ _ P2).
    change (remove_pad [BASE64_PAD; BASE64_PAD]) with (@nil N).
    split.
    + cbn [forallb]. now rewrite (digit_of_value _ T1), (digit_of_value _ T2).
    + match goal with
      | |- a2b_loop (map _ (restore_padding [?c1; ?c2])) _ _ _ = _ =>
          change (map _urlsafe_decode_translation (restore_padding [c1; c2]))
            with [_urlsafe_decode_translation c1;
                  _urlsafe_decode_translation c2; BASE64_PAD; BASE64_PAD]
      end.
      rewrite (@a2b_loop_digit _ _ _ 0 0 0 T1 (table_digit_not_pad _ T1)).
      simpl (0 =? 0). cbv iota.
      rewrite (@a2b_loop_digit _ _ _ 1 _ 0 T2 (table_digit_not_pad _ T2)).
      simpl (1 =? 0). simpl (1 =? 1). cbv iota.
      rewrite a2b_two_pads, O1. reflexivity.
  - inversion Hbs as [|? ? Ha Hbs']; subst.
    inversion Hbs' as [|? ? Hb _]; subst.
    assert (H0 : (0:N) < 256) by lia.
    destruct (sextet_facts Ha Hb) as [S1 [S2 [_ [_ [O1 [A2 _]]]]]].
    destruct (sextet_facts Hb H0) as [_ [_ [S3 [_ [_ [_ [O2 _]]]]]]].
    change (N.shiftr 0 6) with 0 in *. rewrite N.lor_0_r in *.
    destruct (b2a_char_decodes S1) as [P1 T1].
    destruct (b2a_char_decodes S2) as [P2 T2].
    destruct (b2a_char_decodes S3) as [P3 T3].
    change (urlsafe_b64encode [a; b]) with
      [_urlsafe_encode_translation (b2a_char (N.shiftr a 2));
       _urlsafe_encode_translation
         (b2a_char (N.lor (N.shiftl (N.land a 3) 4) (N.shiftr b 4)));
       _urlsafe_encode_translation (b2a_char (N.shiftl (N.land b 15) 2));
       BASE64_PAD].
    rewrite (remove_pad_digit _ _ P1), (remove_pad_digit _ _ P2),
      (remove_pad_digit _ _ P3).
    change (remove_pad [BASE64_PAD]) with (@nil N).
    split.
    + cbn [forallb]. now rewrite (digit_of_value _ T1), (digit_of_value _ T2),
        (digit_of_value _ T3).
    + match goal with
      | |- a2b_loop (map _ (restore_padding [?c1; ?c2; ?c3])) _ _ _ = _ =>
          change (map _urlsafe_decode_translation
                    (restore_padding [c1; c2; c3]))
            with [_urlsafe_decode_translation c1;
                  _urlsafe_decode_translation c2;
                  _urlsafe_decode_translation c3; BASE64_PAD]
      end.
      rewrite (@a2b_loop_digit _ _ _ 0 0 0 T1 (table_digit_not_pad _ T1)).
      simpl (0 =? 0). cbv iota.
      rewrite (@a2b_loop_digit _ _ _ 1 _ 0 T2 (table_digit_not_pad _ T2)).
      simpl (1 =? 0). simpl (1 =? 1). cbv iota.
      rewrite (@a2b_loop_digit _ _ _ 2 _ 0 T3 (table_digit_not_pad _ T3)).
      simpl (2 =? 0). simpl (2 =? 1). simpl (2 =? 2). cbv iota.
      rewrite a2b_one_pad, O1, A2, O2. reflexivity.
  - inversion Hbs as [|? ? Ha Hbs1]; subst.
    inversion Hbs1 as [|? ? Hb Hbs2]; subst.
    inversion Hbs2 as [|? ? Hc Hbs3]; subst.
    destruct (IH Hbs3) as [IHd IHa].
    destruct (sextet_facts Ha Hb) as [S1 [S2 [_ [_ [O1 [A2 _]]]]]].
    destruct (sextet_facts Hb Hc) as [_ [_ [S3 [_ [_ [_ [O2 O3]]]]]]].
    destruct (sextet_facts Hc Hc) as [_ [_ [_ [S4 _]]]].
    destruct (b2a_char_decodes S1) as [P1 T1].
    destruct (b2a_char_decodes S2) as [P2 T2].
    destruct (b2a_char_decodes S3) as [P3 T3].
    destruct (b2a_char_decodes S4) as [P4 T4].
    change (urlsafe_b64encode (a :: b :: c :: bs)) with
      (_urlsafe_encode_translation (b2a_char (N.shiftr a 2))
       :: _urlsafe_encode_translation
            (b2a_char (N.lor (N.shiftl (N.land a 3) 4) (N.shiftr b 4)))
       :: _urlsafe_encode_translation
            (b2a_char (N.lor (N.shiftl (N.land b 15) 2) (N.shiftr c 6)))
       :: _urlsafe_encode_translation (b2a_char (N.land c 63))
       :: urlsafe_b64encode bs).
    rewrite (remove_pad_digit _ _ P1), (remove_pad_digit _ _ P2),
      (remove_pad_digit _ _ P3), (remove_pad_digit _ _ P4).
    split.
    + cbn [forallb]. now rewrite (digit_of_value _ T1), (digit_of_value _ T2),
        (digit_of_value _ T3), (digit_of_value _ T4).
    + rewrite restore_padding_quad. simpl map.
      rewrite (a2b_loop_quad _ _ _ _ _ 0 0 T1 (table_digit_not_pad _ T1)
                 T2 (table_digit_not_pad _ T2) T3 (table_digit_not_pad _ T3)
                 T4 (table_digit_not_pad _ T4)).
      rewrite IHa, O1, A2, O2, O3. reflexivity.
Qed.

(** * Text: [int] of [str], UTF-8 of ASCII, [split] of [join] *)

Lemma parse_digits_digit (c : N) (s : pystr) (prev_us : bool) (acc : N) :
  48 <= c -> c <= 57 ->
  parse_digits (c :: s) prev_us acc = parse_digits s false (acc * 10 + (c - 48)).
Proof.
  intros H1 H2. simpl. unfold digit_value.
  apply N.leb_le in H1, H2. now rewrite H1, H2.
Qed.

Lemma parse_digits_acc (u : Decimal.uint) :
  forall acc,
    parse_digits (uint_chars u) false (N.pos acc)
    = Some (N.pos (Pos.of_uint_acc u acc)).
Proof.
  induction u as [|u IH|u IH|u IH|u IH|u IH|u IH|u IH|u IH|u IH|u IH];
    intros acc; [reflexivity|..];
    cbn [uint_chars Pos.of_uint_acc];
    rewrite parse_digits_digit by lia;
    rewrite <- IH; f_equal; lia.
Qed.

Lemma parse_digits_uint (u : Decimal.uint) :
  parse_digits (uint_chars u) false 0 = Some (Pos.of_uint u).
Proof.
  induction u as [|u IH|u IH|u IH|u IH|u IH|u IH|u IH|u IH|u IH|u IH];
    [reflexivity|..];
    cbn [uint_chars Pos.of_uint];
    rewrite parse_digits_digit by lia;
    [exact IH|..]; rewrite <- parse_digits_acc; reflexivity.
Qed.

Lemma uint_chars_digits (u : Decimal.uint) :
  Forall (fun c => 48 <= c /\ c <= 57) (uint_chars u).
Proof.
  induction u; simpl; constructor; try assumption; lia.
Qed.

Lemma to_uint_chars_nonempty (p : positive) :
  exists c s, uint_chars (Pos.to_uint p) = c :: s /\ 48 <= c /\ c <= 57.
Proof.
  assert (H := uint_chars_digits (Pos.to_uint p)).
  destruct (uint_chars (Pos.to_uint p)) as [|c s] eqn:E.
  - exfalso. apply (DecimalPos.Unsigned.to_uint_nonnil p).
    destruct (Pos.to_uint p); simpl in E; try discriminate. reflexivity.
  - inversion H; subst. exists c, s. auto.
Qed.

Lemma parse_unsigned_pos (p : positive) :
  parse_unsigned (uint_chars (Pos.to_uint p)) = Some (N.pos p).
Proof.
  destruct (to_uint_chars_nonempty p) as [c [s [E [H1 H2]]]].
  unfold parse_unsigned. rewrite E. unfold digit_value.
  apply N.leb_le in H1, H2. rewrite H1, H2. simpl andb. cbv iota.
  rewrite <- E, parse_digits_uint. f_equal.
  apply DecimalPos.Unsigned.of_to.
Qed.

Section IntOfStr.

Variable unicode_decimal : N -> option N.

Lemma to_ascii_char_below_127 (s : pystr) :
  Forall (fun c => c < 127) s -> map (to_ascii_char unicode_decimal) s = s.
Proof.
  induction 1 as [|c s Hc _ IH]; simpl; [reflexivity|].
  unfold to_ascii_char at 1. apply N.ltb_lt in Hc. now rewrite Hc, IH.
Qed.

Lemma digits_below_127 (u : Decimal.uint) :
  Forall (fun c => c < 127) (uint_chars u).
Proof.
  eapply Forall_impl; [|apply uint_chars_digits]. simpl. intros; lia.
Qed.

Lemma skip_spaces_digit (c : N) (s : pystr) :
  48 <= c -> c <= 57 -> skip_spaces (c :: s) = c :: s.
Proof.
  intros H1 H2. simpl. unfold is_space.
  replace (c =? 32) with false by (symmetry; apply N.eqb_neq; lia).
  replace (c <=? 13) with false by (symmetry; apply N.leb_gt; lia).
  now rewrite andb_false_r.
Qed.

(** [int(str(n)) == n]. *)
Lemma py_int_str_of_int (z : Z) :
  py_int unicode_decimal (str_of_int z) = Return z.
Proof.
  destruct z as [|p|p]; [reflexivity| |].
  - unfold py_int. simpl str_of_int.
    rewrite (to_ascii_char_below_127 (digits_below_127 _)).
    assert (Hp := parse_unsigned_pos p).
    destruct (to_uint_chars_nonempty p) as [c [s [E [H1 H2]]]].
    rewrite E in *. rewrite (skip_spaces_digit _ H1 H2).
    assert (Hc : c = 48 \/ c = 49 \/ c = 50 \/ c = 51 \/ c = 52 \/ c = 53
                 \/ c = 54 \/ c = 55 \/ c = 56 \/ c = 57) by lia.
    destruct Hc as [->|[->|[->|[->|[->|[->|[->|[->|[->| ->]]]]]]]]];
      cbv iota beta; rewrite Hp; reflexivity.
  - unfold py_int. simpl str_of_int.
    assert (H45 : Forall (fun c => c < 127) (45 :: uint_chars (Pos.to_uint p))).
    { constructor; [lia|apply digits_below_127]. }
    rewrite (to_ascii_char_below_127 H45).
    change (skip_spaces (45 :: uint_chars (Pos.to_uint p)))
      with (45 :: uint_chars (Pos.to_uint p)).
    cbv iota beta. rewrite parse_unsigned_pos. reflexivity.
Qed.

End IntOfStr.

Lemma utf8_decode_ascii (bs : pybytes) :
  is_ascii bs = true -> utf8_decode bs = Some bs.
Proof.
  induction bs as [|b bs IH]; simpl; [reflexivity|].
  intros H. apply andb_true_iff in H. destruct H as [Hb Hbs].
  now rewrite Hb, (IH Hbs).
Qed.

Lemma bytes_decode_ascii (bs : pybytes) :
  is_ascii bs = true -> bytes_decode bs = Return bs.
Proof.
  intros H. unfold bytes_decode. now rewrite (utf8_decode_ascii _ H).
Qed.

Lemma split_without_sep (sep : N) (s : pystr) :
  forallb (fun c => negb (c =? sep)) s = true -> split sep s = [s].
Proof.
  induction s as [|c s IH]; simpl; [reflexivity|].
  intros H. apply andb_true_iff in H. destruct H as [Hc Hs].
  apply negb_true_iff in Hc. now rewrite Hc, (IH Hs).
Qed.

Lemma split_app_sep (sep : N) (p s : pystr) :
  forallb (fun c => negb (c =? sep)) p = true ->
  split sep (p ++ sep :: s) = p :: split sep s.
Proof.
  induction p as [|c p IH]; simpl; intros H.
  - now rewrite N.eqb_refl.
  - apply andb_true_iff in H. destruct H as [Hc Hp].
    apply negb_true_iff in Hc. now rewrite Hc, (IH Hp).
Qed.

(** [sep.join(parts).split(sep) == parts] when no part holds [sep]. *)
Lemma split_join (sep : N) (parts : list pystr) :
  parts <> [] ->
  forallb (forallb (fun c => negb (c =? sep))) parts = true ->
  split sep (join sep parts) = parts.
Proof.
  induction parts as [|p rest IH]; [contradiction|].
  intros _ H. simpl in H. apply andb_true_iff in H. destruct H as [Hp Hrest].
  destruct rest as [|q rest'].
  - simpl. now apply split_without_sep.
  - change (join sep (p :: q :: rest')) with (p ++ sep :: join sep (q :: rest')).
    rewrite (split_app_sep _ _ _ Hp), IH; [reflexivity|discriminate|exact Hrest].
Qed.

(** * The round trip *)

Lemma str_of_int_chars (z : Z) :
  Forall (fun c => 45 <= c /\ c <= 57) (str_of_int z).
Proof.
  assert (H : forall u, Forall (fun c => 45 <= c /\ c <= 57) (uint_chars u)).
  { intros u. eapply Forall_impl; [|apply uint_chars_digits].
    simpl. intros; lia. }
  destruct z as [|p|p]; simpl.
  - constructor; [lia|constructor].
  - apply H.
  - constructor; [lia|apply H].
Qed.

Lemma forallb_of_Forall {A} (f : A -> bool) (P : A -> Prop) (l : list A) :
  (forall x, P x -> f x = true) -> Forall P l -> forallb f l = true.
Proof.
  intros Hf H. apply forallb_forall. rewrite Forall_forall in H. auto.
Qed.

Section TokenText.

Variable unicode_decimal : N -> option N.

(** A faithful token has no separator in its text, its text is ASCII,
    and the decoding loop reads the token back from it. *)
Lemma faithful_token_text (t : Token) :
  faithful_token t = true ->
  forallb (fun c => negb (c =? SEPARATOR)) (token_text t) = true /\
  is_ascii (token_text t) = true /\
  tagged unicode_decimal (token_text t) t.
Proof.
  destruct t as [s|n]; intros H.
  - simpl in H. cbn [token_text].
    apply andb_true_iff in H. destruct H as [H Hascii].
    apply andb_true_iff in H. destruct H as [Hne Hfree].
    split; [|split; [exact Hascii|]].
    + unfold sentinel_free in Hfree. apply forallb_forall.
      rewrite forallb_forall in Hfree. intros c Hc.
      specialize (Hfree c Hc). apply andb_true_iff in Hfree. tauto.
    + destruct s as [|c s]; [discriminate|].
      unfold tagged, tag_bit. unfold sentinel_free in Hfree.
      simpl in Hfree. apply andb_true_iff in Hfree.
      destruct Hfree as [Hc _]. apply andb_true_iff in Hc.
      destruct Hc as [_ Hc]. apply negb_true_iff in Hc. now rewrite Hc.
  - assert (Hch := str_of_int_chars n). cbn [token_text].
    split; [|split].
    + cbn [forallb]. apply andb_true_iff. split; [reflexivity|].
      apply (forallb_of_Forall _ (P := fun c => 45 <= c /\ c <= 57));
        [|exact Hch].
      intros c Hc. apply negb_true_iff, N.eqb_neq. unfold SEPARATOR. lia.
    + unfold is_ascii. cbn [forallb]. apply andb_true_iff.
      split; [reflexivity|].
      apply (forallb_of_Forall _ (P := fun c => 45 <= c /\ c <= 57));
        [|exact Hch].
      intros c Hc. apply N.ltb_lt. lia.
    + unfold tagged, tag_bit. rewrite N.eqb_refl.
      now rewrite py_int_str_of_int.
Qed.

Lemma faithful_tokens_tagged (toks : list Token) :
  forallb faithful_token toks = true ->
  Forall2 (tagged unicode_decimal) (map token_text toks) toks.
Proof.
  induction toks as [|t toks IH]; simpl; intros H; [constructor|].
  apply andb_true_iff in H. destruct H as [Ht Htoks].
  constructor; [apply (faithful_token_text _ Ht)|exact (IH Htoks)].
Qed.

End TokenText.

Lemma faithful_tokens_no_sep (toks : list Token) :
  forallb faithful_token toks = true ->
  forallb (forallb (fun c => negb (c =? SEPARATOR))) (map token_text toks)
  = true.
Proof.
  induction toks as [|t toks IH]; simpl; intros H; [reflexivity|].
  apply andb_true_iff in H. destruct H as [Ht Htoks].
  rewrite (IH Htoks), andb_true_r.
  apply (faithful_token_text ascii_digits_only _ Ht).
Qed.

Lemma is_ascii_join (parts : list pystr) :
  forallb is_ascii parts = true -> is_ascii (join SEPARATOR parts) = true.
Proof.
  induction parts as [|p rest IH]; simpl; intros H; [reflexivity|].
  apply andb_true_iff in H. destruct H as [Hp Hrest].
  destruct rest as [|q rest']; [exact Hp|].
  rewrite is_ascii_app, Hp. simpl. exact (IH Hrest).
Qed.

Lemma faithful_tokens_ascii (toks : list Token) :
  forallb faithful_token toks = true ->
  is_ascii (join SEPARATOR (map token_text toks)) = true.
Proof.
  intros H. apply is_ascii_join.
  induction toks as [|t toks IH]; simpl in *; [reflexivity|].
  apply andb_true_iff in H. destruct H as [Ht Htoks].
  rewrite (IH Htoks), andb_true_r.
  apply (faithful_token_text ascii_digits_only _ Ht).
Qed.

(** What an encodable pair is made of. *)
Lemma encodable_pair_parts (k : pystr) (i : Token) :
  encodable_pair (k, i) = true ->
  faithful_token (TStr k) = true /\ faithful_token i = true /\
  truthy (TStr k) = true /\ truthy i = true.
Proof.
  intros H. unfold encodable_pair, well_formed_pair in H. simpl in H.
  apply andb_true_iff in H. destruct H as [H Hi2].
  apply andb_true_iff in H. destruct H as [H Hk3].
  apply andb_true_iff in H. destruct H as [H Hi1].
  apply andb_true_iff in H. destruct H as [Hk1 Hk2].
  assert (Tk : truthy (TStr k) = true) by (destruct k; [discriminate|reflexivity]).
  split; [cbn [faithful_token]; now rewrite Hk1, Hk2, Hk3|].
  destruct i as [s|n].
  - apply andb_true_iff in Hi1. destruct Hi1 as [Hs1 Hs2].
    split; [cbn [faithful_token]; now rewrite Hs1, Hs2, Hi2|].
    split; [exact Tk|]. destruct s; [discriminate|reflexivity].
  - split; [reflexivity|]. split; [exact Tk|exact Hi2].
Qed.

Lemma encodable_tokens_faithful (p : KeyPath) :
  forallb encodable_pair p = true ->
  forallb faithful_token (flatten p) = true.
Proof.
  induction p as [|[k i] p IH]; simpl; intros H; [reflexivity|].
  apply andb_true_iff in H. destruct H as [Hki Hp].
  destruct (encodable_pair_parts _ _ Hki) as [Hk [Hi _]].
  unfold faithful_token in Hk at 1. now rewrite Hk, Hi, (IH Hp).
Qed.

Lemma flatten_even (p : KeyPath) : Nat.odd (length (flatten p)) = false.
Proof.
  induction p as [|ki p IH]; [reflexivity|exact IH].
Qed.

(** The encoding loop on an encodable path: one string per pair. *)
Lemma pair_loop_encodable (p : KeyPath) :
  forallb encodable_pair p = true ->
  forall acc,
    pair_loop (zip_pairs (flatten p)) acc =
      Return (acc ++ map (fun ki => fst ki ++ SEPARATOR :: token_text (snd ki)) p).
Proof.
  induction p as [|[k i] p IH]; intros H acc.
  - simpl. now rewrite app_nil_r.
  - simpl in H. apply andb_true_iff in H. destruct H as [Hki Hp].
    destruct (encodable_pair_parts _ _ Hki) as [_ [_ [Tk Ti]]].
    change (zip_pairs (flatten ((k, i) :: p)))
      with ((TStr k, i) :: zip_pairs (flatten p)).
    cbn [pair_loop str_of_token]. rewrite Tk, Ti. cbn [andb negb].
    rewrite (IH Hp). cbn [map fst snd]. rewrite <- app_assoc.
    destruct i; reflexivity.
Qed.

Lemma join_cons (sep : N) (p : pystr) (rest : list pystr) :
  rest <> [] -> join sep (p :: rest) = p ++ sep :: join sep rest.
Proof. destruct rest; [contradiction|reflexivity]. Qed.

(** Joining the pair strings is joining the token texts. *)
Lemma join_pair_strings (p : KeyPath) :
  join SEPARATOR
    (map (fun ki => fst ki ++ SEPARATOR :: token_text (snd ki)) p)
  = join SEPARATOR (map token_text (flatten p)).
Proof.
  induction p as [|[k i] p IH]; [reflexivity|].
  destruct p as [|ki' p'].
  - reflexivity.
  - set (rest := ki' :: p') in *.
    set (f := fun ki : pystr * Token =>
                fst ki ++ SEPARATOR :: token_text (snd ki)) in *.
    change (map f ((k, i) :: rest)) with (f (k, i) :: map f rest).
    change (map token_text (flatten ((k, i) :: rest)))
      with (k :: token_text i :: map token_text (flatten rest)).
    assert (H1 : map f rest <> []) by (unfold rest; discriminate).
    assert (H2 : map token_text (flatten rest) <> [])
      by (unfold rest; destruct ki'; discriminate).
    rewrite (join_cons _ (f (k, i)) H1).
    replace (join SEPARATOR (map f rest))
      with (join SEPARATOR (map token_text (flatten rest)))
      by (symmetry; exact IH).
    rewrite (join_cons _ k (rest := token_text i :: _)) by discriminate.
    rewrite (join_cons _ (token_text i) H2).
    unfold f. cbn [fst snd]. rewrite <- app_assoc. reflexivity.
Qed.

Lemma _parse_path_flatten (p : KeyPath) :
  _parse_path (flatten p)
  = Return (map (fun ki => mkPathElement (fst ki) (Some (snd ki))) p).
Proof.
  induction p as [|[k i] p IH]; [reflexivity|].
  change (flatten ((k, i) :: p)) with (TStr k :: i :: flatten p).
  cbn [_parse_path]. rewrite IH. reflexivity.
Qed.

Lemma datastore_Key_flatten (p : KeyPath) :
  p <> [] ->
  datastore_Key (flatten p)
  = Return (mkKey (flatten p)
              (map (fun ki => mkPathElement (fst ki) (Some (snd ki))) p)).
Proof.
  intros Hne. unfold datastore_Key. rewrite _parse_path_flatten.
  destruct p as [|[k i] p]; [contradiction|reflexivity].
Qed.

Lemma is_ascii_below_256 (bs : pybytes) :
  is_ascii bs = true -> Forall (fun b => b < 256) bs.
Proof.
  unfold is_ascii. rewrite forallb_forall, Forall_forall.
  intros H b Hb. specialize (H b Hb). apply N.ltb_lt in H. lia.
Qed.

Lemma encodable_KeyPath_parts (p : KeyPath) :
  encodable_KeyPath p = true -> p <> [] /\ forallb encodable_pair p = true.
Proof.
  destruct p as [|ki p]; [discriminate|]. intros H.
  split; [discriminate|exact H].
Qed.

(** The encoder on an encodable path: the base64 digits of the joined
    token texts. *)
Lemma encode_encodable (p : KeyPath) (key : Key) :
  forallb encodable_pair p = true ->
  flat_path key = flatten p ->
  get_resource_id_from_key key =
    Return (remove_pad
              (urlsafe_b64encode
                 (join SEPARATOR (map token_text (flatten p))))).
Proof.
  intros Hp Hflat.
  rewrite even_path_enters_loop by (rewrite Hflat; apply flatten_even).
  rewrite Hflat, (pair_loop_encodable _ Hp). cbn [bind app].
  rewrite join_pair_strings.
  assert (Hascii := faithful_tokens_ascii _ (encodable_tokens_faithful _ Hp)).
  unfold encode_ascii. unfold is_ascii in Hascii. rewrite Hascii. cbn [bind].
  apply bytes_decode_ascii, is_b64_digit_ascii.
  apply base64_round_trip, is_ascii_below_256. exact Hascii.
Qed.

(** The decoder on such digits: the tokens of the path. *)
Lemma decode_tokens_encoded (unicode_decimal : N -> option N) (p : KeyPath) :
  p <> [] ->
  forallb encodable_pair p = true ->
  decode_tokens unicode_decimal
    (remove_pad
       (urlsafe_b64encode (join SEPARATOR (map token_text (flatten p)))))
  = Return (flatten p).
Proof.
  intros Hne Hp.
  assert (Hfaithful := encodable_tokens_faithful _ Hp).
  assert (Hascii := faithful_tokens_ascii _ Hfaithful).
  destruct (base64_round_trip (is_ascii_below_256 _ Hascii)) as [Hd Ha].
  unfold decode_tokens.
  rewrite decode_payload_ascii
    by (rewrite restore_padding_ascii; now apply is_b64_digit_ascii).
  rewrite Ha, (bytes_decode_ascii _ Hascii). cbn [bind].
  rewrite split_join.
  - exact (@bits_loop_returns unicode_decimal _ [] _
             (faithful_tokens_tagged unicode_decimal _ Hfaithful)).
  - destruct p as [|[k i] p]; [contradiction|discriminate].
  - now apply faithful_tokens_no_sep.
Qed.

(** C1 (amended): for every KeyPath that is non-empty, whose kinds and
    string identifiers are non-empty ASCII strings without the separator
    and the tag marker, and whose integer identifiers are not zero,
    decoding the encoding gives back a key with the same flat path: the
    same pairs in the same order, integers as integers and strings as
    strings. *)
Theorem C1_round_trip (unicode_decimal : N -> option N) (proc : Process)
    (p : KeyPath) :
  encodable_KeyPath p = true ->
  client_available proc = true ->
  round_trips unicode_decimal proc p.
Proof.
  intros Henc Hav key Hflat.
  destruct (encodable_KeyPath_parts _ Henc) as [Hne Hp].
  destruct (Client_available _ Hav) as [proc' [HC _]].
  exists (remove_pad
            (urlsafe_b64encode (join SEPARATOR (map token_text (flatten p))))),
    (mkKey (flatten p)
       (map (fun ki => mkPathElement (fst ki) (Some (snd ki))) p)),
    proc'.
  split; [exact (encode_encodable _ _ Hp Hflat)|].
  split; [|reflexivity].
  unfold get_key_from_resource_id, pbind, lift.
  rewrite (decode_tokens_encoded unicode_decimal Hne Hp).
  unfold Client_key, pbind, lift. rewrite HC.
  now rewrite (datastore_Key_flatten Hne).
Qed.

Lemma C1_round_trip_witness :
  round_trips ascii_digits_only fresh_process
    [(text "Parent", TStr (text "name")); (text "Child", TInt (-42))].
Proof.
  apply C1_round_trip; reflexivity.
Defined.

(** C1, as stated, fails on the integer identifier 0, which the encoder
    turns down, and on a string outside ASCII, which it cannot encode. *)
Lemma C1_zero_and_non_ascii_do_not_round_trip :
  well_formed_KeyPath [(text "UserEntity", TInt 0)] = true /\
  ~ round_trips ascii_digits_only fresh_process [(text "UserEntity", TInt 0)] /\
  well_formed_KeyPath [([233], TStr (text "name"))] = true /\
  ~ round_trips ascii_digits_only fresh_process [([233], TStr (text "name"))].
Proof.
  split; [reflexivity|]. split; [|split; [reflexivity|]].
  - intros H.
    destruct (H (mkKey [TStr (text "UserEntity"); TInt 0] []) eq_refl)
      as [rid [key' [proc' [Henc _]]]].
    vm_compute in Henc. discriminate Henc.
  - intros H.
    destruct (H (mkKey [TStr [233]; TStr (text "name")] []) eq_refl)
      as [rid [key' [proc' [Henc _]]]].
    vm_compute in Henc. discriminate Henc.
Qed.

(** Every integer identifier other than zero is accepted and written
    behind the tag marker. *)
Lemma nonzero_id_tagged (kind : pystr) (n : Z) (elems : list PathElement) :
  faithful_token (TStr kind) = true -> n <> 0%Z ->
  get_resource_id_from_key (mkKey [TStr kind; TInt n] elems) =
    Return (remove_pad
              (urlsafe_b64encode
                 (kind ++ SEPARATOR :: INTPREFIX :: str_of_int n))).
Proof.
  intros Hk Hn.
  apply (encode_encodable [(kind, TInt n)]); [|reflexivity].
  cbn [forallb]. rewrite andb_true_r.
  unfold encodable_pair, well_formed_pair. cbn [fst snd].
  cbn [faithful_token] in Hk.
  apply andb_true_iff in Hk. destruct Hk as [Hk H3].
  apply andb_true_iff in Hk. destruct Hk as [H1 H2].
  rewrite H1, H2, H3. cbn [andb].
  apply negb_true_iff, Z.eqb_neq. exact Hn.
Qed.

(** * More on the encoder *)

Lemma pair_loop_accepted (pairs : list (Token * Token)) :
  existsb rejected_pair pairs = false ->
  forall acc, pair_loop pairs acc = Return (acc ++ map pair_text pairs).
Proof.
  induction pairs as [|[k i] rest IH]; intros H acc.
  - simpl. now rewrite app_nil_r.
  - cbn [existsb] in H. apply orb_false_iff in H. destruct H as [Hki Hrest].
    unfold rejected_pair in Hki. cbn [fst snd] in Hki.
    cbn [pair_loop]. rewrite Hki, (IH Hrest). cbn [map].
    rewrite <- app_assoc. unfold pair_text. cbn [fst snd app].
    destruct i; reflexivity.
Qed.

(** The digits of an encoding without its padding are the digits of the
    sextets. *)
Lemma remove_pad_sextets (bs : pybytes) :
  Forall (fun b => b < 256) bs ->
  remove_pad (urlsafe_b64encode bs)
  = map (fun v => _urlsafe_encode_translation (b2a_char v)) (sextets bs) /\
  Forall (fun v => v < 64) (sextets bs).
Proof.
  induction bs as [|a|a b|a b c bs IH] using list_ind3; intros Hbs.
  - split; [reflexivity|constructor].
  - inversion Hbs as [|? ? Ha _]; subst.
    assert (H0 : (0:N) < 256) by lia.
    destruct (sextet_facts Ha H0) as [S1 [S2 _]].
    change (N.shiftr 0 4) with 0 in *. rewrite N.lor_0_r in *.
    destruct (b2a_char_decodes S1) as [P1 _].
    destruct (b2a_char_decodes S2) as [P2 _].
    split; [|repeat constructor; assumption].
    change (urlsafe_b64encode [a]) with
      [_urlsafe_encode_translation (b2a_char (N.shiftr a 2));
       _urlsafe_encode_translation (b2a_char (N.shiftl (N.land a 3) 4));
       BASE64_PAD; BASE64_PAD].
    rewrite (remove_pad_digit _ _ P1), (remove_pad_digit _ _ P2).
    reflexivity.
  - inversion Hbs as [|? ? Ha Hbs']; subst.
    inversion Hbs' as [|? ? Hb _]; subst.
    assert (H0 : (0:N) < 256) by lia.
    destruct (sextet_facts Ha Hb) as [S1 [S2 _]].
    destruct (sextet_facts Hb H0) as [_ [_ [S3 _]]].
    change (N.shiftr 0 6) with 0 in *. rewrite N.lor_0_r in *.
    destruct (b2a_char_decodes S1) as [P1 _].
    destruct (b2a_char_decodes S2) as [P2 _].
    destruct (b2a_char_decodes S3) as [P3 _].
    split; [|repeat constructor; assumption].
    change (urlsafe_b64encode [a; b]) with
      [_urlsafe_encode_translation (b2a_char (N.shiftr a 2));
       _urlsafe_encode_translation
         (b2a_char (N.lor (N.shiftl (N.land a 3) 4) (N.shiftr b 4)));
       _urlsafe_encode_translation (b2a_char (N.shiftl (N.land b 15) 2));
       BASE64_PAD].
    rewrite (remove_pad_digit _ _ P1), (remove_pad_digit _ _ P2),
      (remove_pad_digit _ _ P3).
    reflexivity.
  - inversion Hbs as [|? ? Ha Hbs1]; subst.
    inversion Hbs1 as [|? ? Hb Hbs2]; subst.
    inversion Hbs2 as [|? ? Hc Hbs3]; subst.
    destruct (IH Hbs3) as [IHe IHs].
    destruct (sextet_facts Ha Hb) as [S1 [S2 _]].
    destruct (sextet_facts Hb Hc) as [_ [_ [S3 _]]].
    destruct (sextet_facts Hc Hc) as [_ [_ [_ [S4 _]]]].
    destruct (b2a_char_decodes S1) as [P1 _].
    destruct (b2a_char_decodes S2) as [P2 _].
    destruct (b2a_char_decodes S3) as [P3 _].
    destruct (b2a_char_decodes S4) as [P4 _].
    split; [|cbn [sextets]; repeat (constructor; [assumption|]); exact IHs].
    change (urlsafe_b64encode (a :: b :: c :: bs)) with
      (_urlsafe_encode_translation (b2a_char (N.shiftr a 2))
       :: _urlsafe_encode_translation
            (b2a_char (N.lor (N.shiftl (N.land a 3) 4) (N.shiftr b 4)))
       :: _urlsafe_encode_translation
            (b2a_char (N.lor (N.shiftl (N.land b 15) 2) (N.shiftr c 6)))
       :: _urlsafe_encode_translation (b2a_char (N.land c 63))
       :: urlsafe_b64encode bs).
    rewrite (remove_pad_digit _ _ P1), (remove_pad_digit _ _ P2),
      (remove_pad_digit _ _ P3), (remove_pad_digit _ _ P4), IHe.
    reflexivity.
Qed.

Lemma sextets_length (bs : pybytes) :
  length (sextets bs) = ((4 * length bs + 2) / 3)%nat.
Proof.
  induction bs as [|a|a b|a b c bs IH] using list_ind3;
    try reflexivity.
  cbn [sextets length]. rewrite IH.
  generalize (length bs). intros n.
  replace (4 * S (S (S n)) + 2)%nat with ((4 * n + 2) + 4 * 3)%nat by lia.
  rewrite Nat.div_add by lia. lia.
Qed.

Lemma sextet_count_mod_4 (n : nat) :
  N.of_nat ((4 * n + 2) / 3) mod 4 <> 1.
Proof.
  assert (Hn : exists k r, n = (3 * k + r)%nat /\ (r < 3)%nat).
  { exists (n / 3)%nat, (n mod 3)%nat. split.
    - apply Nat.div_mod_eq.
    - apply Nat.mod_upper_bound. lia. }
  destruct Hn as [k [r [-> Hr]]].
  replace (4 * (3 * k + r) + 2)%nat with ((4 * r + 2) + (4 * k) * 3)%nat by lia.
  rewrite Nat.div_add by lia.
  destruct r as [|[|[|r]]]; [| | |lia]; cbn [Nat.mul Nat.add Nat.div]; simpl;
    lia.
Qed.

Lemma sextet_digit_urlsafe (v : N) :
  v < 64 -> is_urlsafe_char (_urlsafe_encode_translation (b2a_char v)) = true.
Proof.
  intros Hv.
  exact (forallb_range 64
           (fun v => is_urlsafe_char (_urlsafe_encode_translation (b2a_char v)))
           eq_refl Hv).
Qed.

(** The encoder never fails on the way from the digits to the [str]. *)
Lemma encoded_digits_decode (bs : pybytes) :
  Forall (fun b => b < 256) bs ->
  bytes_decode (remove_pad (urlsafe_b64encode bs))
  = Return (remove_pad (urlsafe_b64encode bs)).
Proof.
  intros Hbs. apply bytes_decode_ascii, is_b64_digit_ascii.
  now apply base64_round_trip.
Qed.

Lemma encode_closed_form (key : Key) :
  get_resource_id_from_key key =
    if Nat.odd (length (flat_path key)) then Raise InvalidKeyException None
    else if existsb rejected_pair (zip_pairs (flat_path key)) then
      Raise TypeError None
    else if is_ascii (wire_text key) then
      Return (remove_pad (urlsafe_b64encode (wire_text key)))
    else Raise UnicodeEncodeError None.
Proof.
  destruct (Nat.odd (length (flat_path key))) eqn:Hodd.
  - now apply odd_path_rejected.
  - destruct (existsb rejected_pair (zip_pairs (flat_path key))) eqn:Hrej.
    + now apply rejected_key_TypeError.
    + rewrite (even_path_enters_loop _ Hodd), (pair_loop_accepted _ Hrej).
      cbn [bind app]. fold (wire_text key). unfold encode_ascii.
      fold (is_ascii (wire_text key)).
      destruct (is_ascii (wire_text key)) eqn:Hascii; [|reflexivity].
      cbn [bind]. apply encoded_digits_decode, is_ascii_below_256, Hascii.
Qed.

(** X1: The encoder in closed form: which keys it turns down, with which
    error, and what it returns for the others. *)
Theorem encode_outcome (key : Key) :
  get_resource_id_from_key key =
    if Nat.odd (length (flat_path key)) then Raise InvalidKeyException None
    else if existsb rejected_pair (zip_pairs (flat_path key)) then
      Raise TypeError None
    else if is_ascii (wire_text key) then
      Return (remove_pad (urlsafe_b64encode (wire_text key)))
    else Raise UnicodeEncodeError None.
Proof. exact (encode_closed_form key). Qed.

(** X2: A resource id holds letters, digits, [-] and [_] only: no padding and
    nothing a URL would have to escape. *)
Theorem encode_url_safe (key : Key) (rid : pystr) :
  get_resource_id_from_key key = Return rid ->
  forallb is_urlsafe_char rid = true.
Proof.
  rewrite encode_closed_form.
  destruct (Nat.odd _); [discriminate|].
  destruct (existsb _ _); [discriminate|].
  destruct (is_ascii (wire_text key)) eqn:Hascii; [|discriminate].
  intros H; inversion H; subst.
  destruct (remove_pad_sextets (is_ascii_below_256 _ Hascii)) as [-> Hs].
  apply forallb_forall. intros c Hc. apply in_map_iff in Hc.
  destruct Hc as [v [<- Hv]]. rewrite Forall_forall in Hs.
  exact (sextet_digit_urlsafe (Hs v Hv)).
Qed.

Lemma encode_url_safe_witness :
  forallb is_urlsafe_char (text "VXNlckVudGl0eR4fMQ") = true.
Proof.
  apply (encode_url_safe (mkKey [TStr (text "UserEntity"); TInt 1] [])).
  reflexivity.
Defined.

(** X3: The length of a resource id is the number of sextets of the text it
    encodes, so it is never 1 modulo 4 and the decoder never has to put
    back three pads. *)
Theorem encode_length (key : Key) (rid : pystr) :
  get_resource_id_from_key key = Return rid ->
  length rid = ((4 * length (wire_text key) + 2) / 3)%nat /\
  N.of_nat (length rid) mod 4 <> 1.
Proof.
  rewrite encode_closed_form.
  destruct (Nat.odd _); [discriminate|].
  destruct (existsb _ _); [discriminate|].
  destruct (is_ascii (wire_text key)) eqn:Hascii; [|discriminate].
  intros H; inversion H; subst.
  destruct (remove_pad_sextets (is_ascii_below_256 _ Hascii)) as [-> _].
  rewrite length_map, sextets_length. split; [reflexivity|].
  apply sextet_count_mod_4.
Qed.

Lemma encode_length_witness :
  length (text "VXNlckVudGl0eR4fMQ") = 18%nat /\
  N.of_nat (length (text "VXNlckVudGl0eR4fMQ")) mod 4 <> 1.
Proof.
  exact (encode_length (mkKey [TStr (text "UserEntity"); TInt 1] []) eq_refl).
Defined.

(** X7: Removing the padding and putting it back loses nothing: for every
    byte string the library decoder gives the bytes back. *)
Theorem strip_and_restore_padding (bs : pybytes) :
  Forall (fun b => b < 256) bs ->
  urlsafe_b64decode (restore_padding (remove_pad (urlsafe_b64encode bs)))
  = Return bs.
Proof.
  intros Hbs. destruct (base64_round_trip Hbs) as [Hd Ha].
  unfold urlsafe_b64decode, _bytes_from_decode_data, a2b_base64.
  assert (Hascii := is_b64_digit_ascii _ Hd).
  rewrite <- restore_padding_ascii in Hascii. unfold is_ascii in Hascii.
  rewrite Hascii. cbn [bind]. now rewrite Ha.
Qed.

Lemma strip_and_restore_padding_witness :
  urlsafe_b64decode
    (restore_padding (remove_pad (urlsafe_b64encode [255; 0; 128; 7])))
  = Return [255; 0; 128; 7].
Proof.
  apply strip_and_restore_padding. repeat constructor.
Defined.

Lemma flatten_inj (p q : KeyPath) : flatten p = flatten q -> p = q.
Proof.
  revert q. induction p as [|[k i] p IH]; intros [|[k' i'] q] H;
    try discriminate; [reflexivity|].
  cbn [flatten flat_map fst snd app] in H. inversion H; subst.
  f_equal. now apply IH.
Qed.

(** X4: Two encodable paths with the same resource id are the same path. *)
Theorem encode_injective (p q : KeyPath) (key_p key_q : Key) (rid : pystr) :
  encodable_KeyPath p = true -> encodable_KeyPath q = true ->
  flat_path key_p = flatten p -> flat_path key_q = flatten q ->
  get_resource_id_from_key key_p = Return rid ->
  get_resource_id_from_key key_q = Return rid ->
  p = q.
Proof.
  intros Hp Hq Fp Fq Ep Eq.
  destruct (encodable_KeyPath_parts _ Hp) as [Np Pp].
  destruct (encodable_KeyPath_parts _ Hq) as [Nq Pq].
  rewrite (encode_encodable _ _ Pp Fp) in Ep.
  rewrite (encode_encodable _ _ Pq Fq) in Eq.
  inversion Ep as [Ep']. inversion Eq as [Eq'].
  assert (Dp := decode_tokens_encoded ascii_digits_only Np Pp).
  assert (Dq := decode_tokens_encoded ascii_digits_only Nq Pq).
  rewrite Ep' in Dp. rewrite Eq' in Dq. rewrite Dp in Dq.
  inversion Dq. now apply flatten_inj.
Qed.

Lemma encode_injective_witness :
  [(text "UserEntity", TInt 1)] = [(text "UserEntity", TInt 1)].
Proof.
  apply (@encode_injective
           [(text "UserEntity", TInt 1)] [(text "UserEntity", TInt 1)]
           (mkKey [TStr (text "UserEntity"); TInt 1] [])
           (mkKey [TStr (text "UserEntity"); TInt 1] [])
           (text "VXNlckVudGl0eR4fMQ")); reflexivity.
Defined.

(** The encoder sees a key through its wire text alone. *)
Lemma encode_by_wire_text (key1 key2 : Key) :
  Nat.odd (length (flat_path key1)) = Nat.odd (length (flat_path key2)) ->
  existsb rejected_pair (zip_pairs (flat_path key1))
  = existsb rejected_pair (zip_pairs (flat_path key2)) ->
  wire_text key1 = wire_text key2 ->
  get_resource_id_from_key key1 = get_resource_id_from_key key2.
Proof.
  intros H1 H2 H3. rewrite !encode_closed_form. now rewrite H1, H2, H3.
Qed.



(** X6: A separator inside a string identifier is not escaped: the key has
    the resource id of the longer path the separators cut it into. *)
Theorem separator_in_identifier_collides (kind s1 kind2 s2 : pystr)
    (elems1 elems2 : list PathElement) :
  nonempty s1 = true -> nonempty kind2 = true -> nonempty s2 = true ->
  get_resource_id_from_key
    (mkKey [TStr kind; TStr (s1 ++ SEPARATOR :: kind2 ++ SEPARATOR :: s2)]
       elems1)
  = get_resource_id_from_key
      (mkKey [TStr kind; TStr s1; TStr kind2; TStr s2] elems2).
Proof.
  intros H1 H2 H3. apply encode_by_wire_text; [reflexivity| |].
  - cbn [flat_path zip_pairs existsb]. unfold rejected_pair.
    cbn [fst snd str_of_token].
    destruct kind as [|c k]; [reflexivity|].
    destruct s1 as [|c1 s1]; [discriminate|].
    destruct kind2 as [|c2 k2]; [discriminate|].
    destruct s2 as [|c3 s2]; [discriminate|]. reflexivity.
  - unfold wire_text, pair_text.
    cbn [flat_path zip_pairs map fst snd str_of_token token_text join].
    rewrite <- !app_assoc. reflexivity.
Qed.

Lemma separator_in_identifier_collides_witness :
  get_resource_id_from_key
    (mkKey [TStr (text "A");
            TStr (text "x" ++ SEPARATOR :: text "B" ++ SEPARATOR :: text "y")]
       [])
  = get_resource_id_from_key
      (mkKey [TStr (text "A"); TStr (text "x"); TStr (text "B");
              TStr (text "y")] []).
Proof.
  apply separator_in_identifier_collides; reflexivity.
Defined.

(** * More on the decoder *)

Lemma decode_translation_of_encode_translation (c : N) :
  _urlsafe_decode_translation (_urlsafe_encode_translation c)
  = _urlsafe_decode_translation c.
Proof.
  unfold _urlsafe_encode_translation.
  destruct (c =? 43) eqn:E1; [apply N.eqb_eq in E1; now subst|].
  destruct (c =? 47) eqn:E2; [apply N.eqb_eq in E2; now subst|].
  reflexivity.
Qed.

Lemma encode_translation_ascii (s : pystr) :
  is_ascii (map _urlsafe_encode_translation s) = is_ascii s.
Proof.
  unfold is_ascii. induction s as [|c s IH]; [reflexivity|].
  cbn [map forallb]. rewrite IH. f_equal.
  unfold _urlsafe_encode_translation.
  destruct (c =? 43) eqn:E1; [apply N.eqb_eq in E1; now subst|].
  destruct (c =? 47) eqn:E2; [apply N.eqb_eq in E2; now subst|].
  reflexivity.
Qed.

Lemma restore_padding_map (f : N -> N) (s : pystr) :
  f BASE64_PAD = BASE64_PAD ->
  restore_padding (map f s) = map f (restore_padding s).
Proof.
  intros Hf. unfold restore_padding. rewrite length_map.
  destruct (negb (N.of_nat (length s) mod 4 =? 0)); [|reflexivity].
  rewrite map_app. f_equal.
  induction (N.to_nat (4 - N.of_nat (length s) mod 4)) as [|k IH];
    [reflexivity|].
  cbn [repeat map]. rewrite Hf. f_equal. exact IH.
Qed.

(** X8: The decoder reads the standard alphabet as well: writing [-] for [+]
    and [_] for [/] in a resource id changes nothing. *)
Theorem decode_either_alphabet (unicode_decimal : N -> option N)
    (rid : pystr) (p : Process) :
  get_key_from_resource_id unicode_decimal
    (map _urlsafe_encode_translation rid) p
  = get_key_from_resource_id unicode_decimal rid p.
Proof.
  unfold get_key_from_resource_id, decode_tokens. f_equal. f_equal. f_equal.
  rewrite (restore_padding_map _ rid eq_refl).
  destruct (is_ascii rid) eqn:Hascii.
  - rewrite !decode_payload_ascii
      by (rewrite ?restore_padding_map, ?encode_translation_ascii,
            ?restore_padding_ascii by reflexivity; exact Hascii).
    rewrite map_map.
    rewrite (map_ext _ _ decode_translation_of_encode_translation).
    reflexivity.
  - rewrite !decode_payload_not_ascii
      by (rewrite ?encode_translation_ascii, ?restore_padding_ascii;
          exact Hascii).
    reflexivity.
Qed.

Lemma split_parts_without_sep (sep : N) (s : pystr) :
  Forall (fun part => forallb (fun c => negb (c =? sep)) part = true)
    (split sep s).
Proof.
  induction s as [|c s IH]; cbn [split]; [repeat constructor|].
  destruct (c =? sep) eqn:E; [constructor; [reflexivity|exact IH]|].
  destruct (split sep s) as [|part parts]; [repeat constructor; cbn; now rewrite E|].
  inversion IH; subst. constructor; [|assumption].
  cbn [forallb]. rewrite E. assumption.
Qed.

Lemma split_nonempty (sep : N) (s : pystr) : split sep s <> [].
Proof.
  destruct s as [|c s]; cbn [split]; [discriminate|].
  destruct (c =? sep); [discriminate|].
  destruct (split sep s); discriminate.
Qed.

Lemma tagged_decoded_token (d : N -> option N) (bit : pystr) (tok : Token) :
  forallb (fun c => negb (c =? SEPARATOR)) bit = true ->
  tagged d bit tok -> decoded_token tok = true.
Proof.
  unfold tagged, tag_bit. intros Hsep. destruct bit as [|c tail]; [discriminate|].
  destruct (c =? INTPREFIX) eqn:E.
  - destruct (py_int d tail); cbn [bind]; [|discriminate].
    intros H; inversion H; reflexivity.
  - intros H; inversion H; subst. cbn [decoded_token nonempty starts_with_tag].
    now rewrite E, Hsep.
Qed.

Lemma Forall2_tagged_decoded (d : N -> option N) (bits : list pystr)
    (toks : list Token) :
  Forall (fun part => forallb (fun c => negb (c =? SEPARATOR)) part = true) bits ->
  Forall2 (tagged d) bits toks ->
  forallb decoded_token toks = true.
Proof.
  intros Hb H. induction H as [|bit tok bits toks Ht _ IH];
    [reflexivity|].
  inversion Hb as [|? ? Hbit Hbits]; subst. cbn [forallb].
  rewrite (@tagged_decoded_token d bit tok Hbit Ht). now apply IH.
Qed.

(** The tokens the decoder hands over: at least one, each an integer or
    a non-empty string without separator and without leading tag. *)
Lemma decode_tokens_decoded (d : N -> option N) (rid : pystr)
    (toks : list Token) :
  decode_tokens d rid = Return toks ->
  toks <> [] /\ forallb decoded_token toks = true.
Proof.
  unfold decode_tokens.
  destruct (decode_payload (restore_padding rid)) as [decoded|c m];
    cbn [bind]; [|discriminate].
  intros H. destruct (bits_loop_returned d _ _ H) as [t [-> HF]].
  cbn [app]. split.
  - intros ->. inversion HF as [Hs|]. symmetry in Hs.
    exact (split_nonempty _ _ Hs).
  - exact (Forall2_tagged_decoded (split_parts_without_sep _ _) HF).
Qed.

(** A key returned by the decoder, taken apart. *)
Lemma get_key_returned (d : N -> option N) (rid : pystr) (p p' : Process)
    (key : Key) :
  get_key_from_resource_id d rid p = (Return key, p') ->
  exists toks,
    decode_tokens d rid = Return toks /\
    Client p = (Return tt, p') /\
    datastore_Key toks = Return key.
Proof.
  unfold get_key_from_resource_id, Client_key, pbind, lift.
  destruct (decode_tokens d rid) as [toks|c m]; [|discriminate].
  destruct (Client p) as [[[]|c m] p1]; [|discriminate].
  destruct (datastore_Key toks) as [k|c m] eqn:Hk; [|discriminate].
  intros H; inversion H; subst. exists toks. auto.
Qed.

Lemma datastore_Key_returned (toks : list Token) (key : Key) :
  datastore_Key toks = Return key ->
  flat_path key = toks /\ _parse_path toks = Return (path key).
Proof.
  unfold datastore_Key. destruct toks as [|t rest]; [discriminate|].
  destruct (_parse_path (t :: rest)) as [elems|c m]; cbn [bind];
    [|discriminate].
  intros H; inversion H; subst. auto.
Qed.

(** A flat path the key constructor accepts has a string in every kind
    position. *)
Lemma _parse_path_kinds (toks : list Token) (elems : list PathElement) :
  _parse_path toks = Return elems ->
  forallb (fun pr => match fst pr with TStr _ => true | TInt _ => false end)
    (zip_pairs toks) = true.
Proof.
  revert elems.
  assert (H : (forall elems, _parse_path toks = Return elems ->
                 forallb (fun pr => match fst pr with
                                    | TStr _ => true
                                    | TInt _ => false
                                    end) (zip_pairs toks) = true) /\
              (forall t elems, _parse_path (t :: toks) = Return elems ->
                 forallb (fun pr => match fst pr with
                                    | TStr _ => true
                                    | TInt _ => false
                                    end) (zip_pairs (t :: toks)) = true));
    [|exact (proj1 H)].
  induction toks as [|i rest [IH1 IH2]].
  - split; reflexivity.
  - split; [exact (IH2 i)|].
    intros [kind|n] elems H; cbn [_parse_path] in H; [|discriminate].
    destruct (_parse_path rest) as [es|c m] eqn:Hrest; cbn [bind] in H;
      [|discriminate].
    cbn [zip_pairs forallb fst]. exact (IH1 _ eq_refl).
Qed.

Lemma decoded_key_invariant (unicode_decimal : N -> option N) (rid : pystr)
    (p p' : Process) (key : Key) :
  get_key_from_resource_id unicode_decimal rid p = (Return key, p') ->
  flat_path key <> [] /\
  forallb decoded_token (flat_path key) = true /\
  forallb (fun pr => match fst pr with TStr _ => true | TInt _ => false end)
    (zip_pairs (flat_path key)) = true /\
  decode_tokens unicode_decimal rid = Return (flat_path key).
Proof.
  intros H. destruct (get_key_returned _ _ _ H) as [toks [Ht [_ Hk]]].
  destruct (datastore_Key_returned _ Hk) as [Hflat Hparse].
  destruct (decode_tokens_decoded _ _ Ht) as [Hne Hdec].
  rewrite Hflat. repeat split; try assumption.
  exact (_parse_path_kinds _ Hparse).
Qed.

(** The kinds of the path elements the key constructor builds are the
    tokens in the kind positions, so each of these is a string. *)
Lemma _parse_path_kind_tokens (toks : list Token) (elems : list PathElement) :
  _parse_path toks = Return elems ->
  kind_tokens toks = map (fun e => TStr (pe_kind e)) elems.
Proof.
  revert elems.
  assert (H : (forall elems, _parse_path toks = Return elems ->
                 kind_tokens toks = map (fun e => TStr (pe_kind e)) elems) /\
              (forall t elems, _parse_path (t :: toks) = Return elems ->
                 kind_tokens (t :: toks)
                 = map (fun e => TStr (pe_kind e)) elems));
    [|exact (proj1 H)].
  induction toks as [|i rest [IH1 IH2]].
  - split.
    + intros elems H; inversion H; reflexivity.
    + intros [kind|n] elems H; cbn [_parse_path] in H; [|discriminate].
      inversion H; reflexivity.
  - split; [exact (IH2 i)|].
    intros [kind|n] elems H; cbn [_parse_path] in H; [|discriminate].
    destruct (_parse_path rest) as [es|c m] eqn:Hrest; cbn [bind] in H;
      [|discriminate].
    inversion H; subst. cbn [kind_tokens map pe_kind].
    now rewrite (IH1 _ eq_refl).
Qed.

(** X9: Every key the decoder returns is built from at least one token; its
    string tokens are non-empty, hold no separator and do not begin with
    the tag marker; and every token in a kind position, the lone last one
    of a partial key included, is a string, the kind of the path element
    at that place. *)
Theorem decoded_key_tokens (unicode_decimal : N -> option N) (rid : pystr)
    (p p' : Process) (key : Key) :
  get_key_from_resource_id unicode_decimal rid p = (Return key, p') ->
  flat_path key <> [] /\
  forallb decoded_token (flat_path key) = true /\
  kind_tokens (flat_path key) = map (fun e => TStr (pe_kind e)) (path key) /\
  forallb is_string_token (kind_tokens (flat_path key)) = true /\
  forallb (fun pr => match fst pr with TStr _ => true | TInt _ => false end)
    (zip_pairs (flat_path key)) = true /\
  decode_tokens unicode_decimal rid = Return (flat_path key).
Proof.
  intros H.
  destruct (decoded_key_invariant _ _ _ H) as [Hne [Htok [Hzip Hdec]]].
  destruct (get_key_returned _ _ _ H) as [toks [_ [_ Hk]]].
  destruct (datastore_Key_returned _ Hk) as [Hflat Hparse].
  rewrite <- Hflat in Hparse.
  assert (Hkinds := _parse_path_kind_tokens _ Hparse).
  repeat split; try assumption.
  rewrite Hkinds. apply forallb_forall. intros t Ht.
  apply in_map_iff in Ht. destruct Ht as [e [<- _]]. reflexivity.
Qed.

Lemma decoded_key_tokens_witness :
  forallb is_string_token (kind_tokens [TStr (text "ABC")]) = true /\
  forallb decoded_token [TStr (text "UserEntity"); TInt 1] = true.
Proof.
  split.
  - exact (proj1 (proj2 (proj2 (proj2
      (@decoded_key_tokens ascii_digits_only (text "QUJD")
         fresh_process (mkProcess (Some 0%nat) 1 true)
         (mkKey [TStr (text "ABC")] [mkPathElement (text "ABC") None])
         eq_refl))))).
  - exact (proj1 (proj2
      (@decoded_key_tokens ascii_digits_only (text "VXNlckVudGl0eR4fMQ")
         fresh_process (mkProcess (Some 0%nat) 1 true)
         (mkKey [TStr (text "UserEntity"); TInt 1]
            [mkPathElement (text "UserEntity") (Some (TInt 1))])
         eq_refl))).
Defined.

Lemma zip_pairs_flatten (p : KeyPath) :
  zip_pairs (flatten p) = map (fun ki => (TStr (fst ki), snd ki)) p.
Proof.
  induction p as [|[k i] p IH]; [reflexivity|].
  change (flatten ((k, i) :: p)) with (TStr k :: i :: flatten p).
  cbn [zip_pairs map fst snd]. now rewrite IH.
Qed.

(** An even flat path with strings as kinds is the flat form of a path of
    pairs. *)
Lemma even_flat_path_is_flatten (toks : list Token) :
  Nat.odd (length toks) = false ->
  forallb (fun pr => match fst pr with TStr _ => true | TInt _ => false end)
    (zip_pairs toks) = true ->
  exists p, toks = flatten p.
Proof.
  assert (H : (Nat.odd (length toks) = false ->
               forallb (fun pr => match fst pr with
                                  | TStr _ => true
                                  | TInt _ => false
                                  end) (zip_pairs toks) = true ->
               exists p, toks = flatten p) /\
              (forall t, Nat.odd (length (t :: toks)) = false ->
               forallb (fun pr => match fst pr with
                                  | TStr _ => true
                                  | TInt _ => false
                                  end) (zip_pairs (t :: toks)) = true ->
               exists p, t :: toks = flatten p));
    [|exact (proj1 H)].
  induction toks as [|i rest [IH1 IH2]].
  - split; [intros _ _; now exists []|]. intros t H; discriminate H.
  - split; [exact (IH2 i)|].
    intros t Hodd Hk. cbn [zip_pairs forallb fst] in Hk.
    apply andb_true_iff in Hk. destruct Hk as [Ht Hk].
    destruct t as [k|n]; [|discriminate].
    change (Nat.odd (length (TStr k :: i :: rest)))
      with (Nat.odd (length rest)) in Hodd.
    destruct (IH1 Hodd Hk) as [p ->]. now exists ((k, i) :: p).
Qed.

Lemma wire_text_flatten (key : Key) (p : KeyPath) :
  flat_path key = flatten p ->
  wire_text key = join SEPARATOR (map token_text (flatten p)).
Proof.
  intros H. unfold wire_text. rewrite H, zip_pairs_flatten, map_map.
  rewrite <- join_pair_strings. reflexivity.
Qed.

Lemma is_ascii_parts (parts : list pystr) :
  is_ascii (join SEPARATOR parts) = true -> forallb is_ascii parts = true.
Proof.
  induction parts as [|p rest IH]; [reflexivity|].
  destruct rest as [|q rest'].
  - cbn [join forallb]. intros ->. reflexivity.
  - rewrite join_cons by discriminate. rewrite is_ascii_app.
    intros H. apply andb_true_iff in H. destruct H as [Hp H].
    change (is_ascii (SEPARATOR :: join SEPARATOR (q :: rest')))
      with (is_ascii (join SEPARATOR (q :: rest'))) in H.
    cbn [forallb] in *. rewrite Hp. exact (IH H).
Qed.

(** The text of a decoded token holds no separator, and the decoding loop
    reads the token back from it. *)
Lemma decoded_token_text (d : N -> option N) (t : Token) :
  decoded_token t = true ->
  forallb (fun c => negb (c =? SEPARATOR)) (token_text t) = true /\
  tagged d (token_text t) t.
Proof.
  destruct t as [s|n]; intros H.
  - cbn [decoded_token] in H. apply andb_true_iff in H.
    destruct H as [H Hsep]. apply andb_true_iff in H. destruct H as [Hne Htag].
    split; [exact Hsep|].
    destruct s as [|c s]; [discriminate|].
    unfold tagged. cbn [token_text tag_bit]. cbn [starts_with_tag] in Htag.
    apply negb_true_iff in Htag. now rewrite Htag.
  - destruct (faithful_token_text d (TInt n) eq_refl) as [H1 [_ H2]]. auto.
Qed.

(** Decoding the encoding of the text of decoded tokens gives the tokens. *)
Lemma decode_tokens_of_wire (d : N -> option N) (toks : list Token) :
  toks <> [] ->
  forallb decoded_token toks = true ->
  is_ascii (join SEPARATOR (map token_text toks)) = true ->
  decode_tokens d
    (remove_pad (urlsafe_b64encode (join SEPARATOR (map token_text toks))))
  = Return toks.
Proof.
  intros Hne Hdec Hascii.
  destruct (base64_round_trip (is_ascii_below_256 _ Hascii)) as [Hd Ha].
  unfold decode_tokens.
  rewrite decode_payload_ascii
    by (rewrite restore_padding_ascii; now apply is_b64_digit_ascii).
  rewrite Ha, (bytes_decode_ascii _ Hascii). cbn [bind].
  rewrite forallb_forall in Hdec.
  rewrite split_join.
  - apply (@bits_loop_returns d _ [] toks).
    clear Hne Hascii Hd Ha. induction toks as [|t toks IH]; [constructor|].
    cbn [map]. constructor.
    + apply decoded_token_text, Hdec. now left.
    + apply IH. intros x Hx. apply Hdec. now right.
  - destruct toks; [contradiction|discriminate].
  - apply forallb_forall. intros part Hpart. apply in_map_iff in Hpart.
    destruct Hpart as [t [<- Ht]].
    exact (proj1 (decoded_token_text d t (Hdec t Ht))).
Qed.

(** X10: Encoding a decoded key and decoding again gives the same key: the
    second resource id is a normal form of the first. *)
Theorem reencoded_key_decodes_to_itself (unicode_decimal : N -> option N)
    (rid rid' : pystr) (p p1 : Process) (key : Key) :
  get_key_from_resource_id unicode_decimal rid p = (Return key, p1) ->
  get_resource_id_from_key key = Return rid' ->
  get_key_from_resource_id unicode_decimal rid' p1 = (Return key, p1).
Proof.
  intros Hdec Henc.
  destruct (decoded_key_invariant _ _ _ Hdec) as [Hne [Htok [Hkinds _]]].
  destruct (get_key_returned _ _ _ Hdec) as [toks [_ [HC Hk]]].
  destruct (datastore_Key_returned _ Hk) as [Hflat _].
  rewrite encode_closed_form in Henc.
  destruct (Nat.odd (length (flat_path key))) eqn:Hodd; [discriminate|].
  destruct (existsb _ _); [discriminate|].
  destruct (is_ascii (wire_text key)) eqn:Hascii; [|discriminate].
  inversion Henc; subst rid'.
  destruct (even_flat_path_is_flatten _ Hodd Hkinds) as [kp Hkp].
  rewrite (wire_text_flatten _ _ Hkp) in *. rewrite <- Hkp in *.
  unfold get_key_from_resource_id, pbind, lift.
  rewrite (decode_tokens_of_wire unicode_decimal Hne Htok Hascii).
  unfold Client_key, pbind, lift.
  assert (Hcached : exists h, ds_client p1 = Some h).
  { unfold Client, datastore_Client in HC.
    destruct (ds_client p) as [h|] eqn:Hh.
    - inversion HC; subst. now exists h.
    - destruct (credentials p); inversion HC; subst. now eexists. }
  destruct Hcached as [h Hh]. rewrite (Client_cached _ Hh).
  rewrite Hflat, Hk. reflexivity.
Qed.

Lemma reencoded_key_decodes_to_itself_witness :
  get_key_from_resource_id ascii_digits_only (text "VXNlckVudGl0eR4fMQ")
    (mkProcess (Some 0%nat) 1 true)
  = (Return (mkKey [TStr (text "UserEntity"); TInt 1]
               [mkPathElement (text "UserEntity") (Some (TInt 1))]),
     mkProcess (Some 0%nat) 1 true).
Proof.
  apply (@reencoded_key_decodes_to_itself ascii_digits_only
           (text "VXNlckVudGl0eR4f!MDAx") (text "VXNlckVudGl0eR4fMQ")
           fresh_process); reflexivity.
Defined.

(** X11: The errors of the decoder: the four of the decoding itself and of the
    key constructor, or the one of a client that cannot be built; and an
    error met before the key is built leaves the process as it was. *)
Theorem decode_failures (unicode_decimal : N -> option N) (rid : pystr)
    (p p' : Process) (c : ExcClass) (m : option pystr) :
  get_key_from_resource_id unicode_decimal rid p = (Raise c m, p') ->
  (c = InvalidIdException \/ c = ValueError \/ c = UnicodeDecodeError \/
   c = IndexError \/
   (c = DefaultCredentialsError /\ client_available p = false)) /\
  (decode_tokens unicode_decimal rid = Raise c m -> p' = p).
Proof.
  unfold get_key_from_resource_id, pbind, lift, decode_tokens.
  destruct (decode_payload (restore_padding rid)) as [decoded|c1 m1] eqn:Hp;
    cbn [bind].
  - destruct (bits_loop unicode_decimal (split SEPARATOR decoded) [])
      as [toks|c2 m2] eqn:Hb.
    + unfold Client_key, pbind, lift, Client, datastore_Client,
        client_available.
      destruct (ds_client p) as [h|].
      * destruct (datastore_Key toks) as [k|c3 m3] eqn:Hk; [discriminate|].
        intros H; inversion H; subst.
        rewrite (datastore_Key_raises _ Hk). split; [tauto|discriminate].
      * destruct (credentials p).
        -- destruct (datastore_Key toks) as [k|c3 m3] eqn:Hk; [discriminate|].
           intros H; inversion H; subst.
           rewrite (datastore_Key_raises _ Hk).
           split; [tauto|discriminate].
        -- intros H; inversion H; subst. split; [|discriminate].
           repeat right. auto.
    + intros H; inversion H; subst. split; [|reflexivity].
      destruct (bits_loop_raised _ _ _ Hb) as [bit [_ Hbit]].
      destruct (tag_bit_raises _ _ Hbit) as [_ [[-> _]|[-> _]]]; tauto.
  - intros H; inversion H; subst. split; [|reflexivity].
    destruct (decode_payload_raises _ Hp) as [->|[->| ->]]; tauto.
Qed.

Lemma decode_failures_witness :
  (IndexError = InvalidIdException \/ IndexError = ValueError \/
   IndexError = UnicodeDecodeError \/ IndexError = IndexError \/
   (IndexError = DefaultCredentialsError /\
    client_available fresh_process = false)) /\
  (decode_tokens ascii_digits_only (text "Hg") = Raise IndexError None ->
   fresh_process = fresh_process).
Proof.
  exact (@decode_failures ascii_digits_only (text "Hg") fresh_process
           fresh_process IndexError None eq_refl).
Defined.

(** * More on the resolver *)

Section ResolveMore.

Variable unicode_decimal : N -> option N.
Variable Entity : Type.
Variable datastore_get : Key -> Outcome (option Entity).

(** X12: The resolver raises a plain [ValueError] exactly on the empty resource
    id, which it turns down before it tries anything. *)
Theorem resolve_ValueError_iff_empty (expected_kind rid : pystr)
    (p : Process) :
  (exists m,
     fst (get_entity_by_resource_id unicode_decimal datastore_get
            expected_kind rid p) = Raise ValueError m) <->
  rid = [].
Proof.
  split.
  - intros [m H]. destruct rid as [|x rid']; [reflexivity|exfalso].
    assert (Hne : x :: rid' <> []) by discriminate.
    destruct (resolve_never_raw unicode_decimal datastore_get _ p Hne H eq_refl)
      as [Hc _].
    discriminate Hc.
  - intros ->. eexists. reflexivity.
Qed.

(** X13: An entity the resolver returns is the result of the lookup of the
    decoded key, and that key is of the expected kind. *)
Theorem resolve_returned (expected_kind rid : pystr) (p : Process)
    (found : option Entity) :
  fst (get_entity_by_resource_id unicode_decimal datastore_get
         expected_kind rid p) = Return found ->
  rid <> [] /\
  exists key p1,
    get_key_from_resource_id unicode_decimal rid p = (Return key, p1) /\
    Key_kind key = Return expected_kind /\
    datastore_get key = Return found.
Proof.
  intros H. destruct rid as [|x rid']; [discriminate H|].
  split; [discriminate|].
  rewrite resolve_unfold in H by discriminate.
  unfold resolve_body, pbind, lift in H.
  destruct (get_key_from_resource_id unicode_decimal (x :: rid') p)
    as [[key|c m] p1]; cbn [fst] in H.
  - exists key, p1. split; [reflexivity|].
    destruct (Key_kind key) as [kind|c m]; cbn [fst] in H.
    + destruct (pystr_eqb kind expected_kind) eqn:E; cbn [negb fst] in H.
      * apply pystr_eqb_eq in E. subst kind. split; [reflexivity|].
        unfold Client_get, pbind, lift in H.
        destruct (Client p1) as [[u|c m] p2]; cbn [fst] in H.
        -- destruct (datastore_get key) as [r|c m]; cbn [try_except] in H.
           ++ now inversion H.
           ++ destruct (caught_by resolve_handlers c); discriminate H.
        -- cbn [try_except] in H.
           destruct (caught_by resolve_handlers c); discriminate H.
      * discriminate H.
    + cbn [try_except] in H.
      destruct (caught_by resolve_handlers c); discriminate H.
  - cbn [try_except] in H.
    destruct (caught_by resolve_handlers c); discriminate H.
Qed.

End ResolveMore.

Lemma resolve_ValueError_iff_empty_witness :
  exists m,
    fst (get_entity_by_resource_id ascii_digits_only
           (fun _ => Return (@None nat)) (text "UserEntity") [] fresh_process)
    = Raise ValueError m.
Proof.
  exact (proj2 (@resolve_ValueError_iff_empty ascii_digits_only nat
                  (fun _ => Return None) (text "UserEntity") []
                  fresh_process) eq_refl).
Defined.

Lemma resolve_returned_witness :
  Key_kind (mkKey [TStr (text "UserEntity"); TInt 1]
              [mkPathElement (text "UserEntity") (Some (TInt 1))])
  = Return (text "UserEntity").
Proof.
  destruct (@resolve_returned ascii_digits_only nat (fun _ => Return None)
              (text "UserEntity") (text "VXNlckVudGl0eR4fMQ") fresh_process
              None eq_refl) as [_ [key [p1 [Hk [Hkind _]]]]].
  inversion Hk; subst. exact Hkind.
Defined.

Lemma Key_kind_of_path (p : KeyPath) :
  p <> [] -> Key_kind (key_of_path p) = Return (leaf_kind p).
Proof.
  intros Hne. destruct (exists_last Hne) as [p' [ki ->]].
  unfold Key_kind, key_of_path, leaf_kind. cbn [path].
  rewrite map_app, rev_app_distr, last_last. reflexivity.
Qed.

Lemma encoding_nonempty (bs : pybytes) :
  Forall (fun b => b < 256) bs -> bs <> [] ->
  remove_pad (urlsafe_b64encode bs) <> [].
Proof.
  intros Hbs Hne. destruct (remove_pad_sextets Hbs) as [-> _].
  destruct bs as [|a [|b [|c l]]]; [contradiction|discriminate..].
Qed.

Lemma path_text_nonempty (p : KeyPath) :
  p <> [] -> join SEPARATOR (map token_text (flatten p)) <> [].
Proof.
  destruct p as [|[k i] p]; [contradiction|]. intros _.
  change (flatten ((k, i) :: p)) with (TStr k :: i :: flatten p).
  cbn [map token_text]. rewrite join_cons by discriminate.
  destruct k; discriminate.
Qed.

Section EndToEnd.

Variable unicode_decimal : N -> option N.
Variable Entity : Type.
Variable datastore_get : Key -> Outcome (option Entity).

(** X14: Resolving the resource id of a key under the kind of its last pair
    looks that very key up; under any other kind it ends in the unifying
    error without a lookup. *)
Theorem resolve_encoded_key (p : KeyPath) (key : Key) (proc : Process) :
  encodable_KeyPath p = true ->
  flat_path key = flatten p ->
  client_available proc = true ->
  exists rid,
    get_resource_id_from_key key = Return rid /\
    fst (get_entity_by_resource_id unicode_decimal datastore_get
           (leaf_kind p) rid proc)
    = try_except (datastore_get (key_of_path p)) resolve_handlers
        InvalidIdException (_invalid_id_err rid) /\
    forall kind,
      kind <> leaf_kind p ->
      fst (get_entity_by_resource_id unicode_decimal datastore_get
             kind rid proc) = unifying_error rid.
Proof.
  intros Henc Hflat Hav.
  destruct (encodable_KeyPath_parts _ Henc) as [Hne Hp].
  destruct (Client_available _ Hav) as [proc1 [HC Hav1]].
  destruct (Client_available _ Hav1) as [proc2 [HC1 _]].
  set (rid := remove_pad
                (urlsafe_b64encode
                   (join SEPARATOR (map token_text (flatten p))))).
  assert (Hrid : rid <> []).
  { apply encoding_nonempty; [|now apply path_text_nonempty].
    apply is_ascii_below_256, faithful_tokens_ascii.
    now apply encodable_tokens_faithful. }
  assert (Hkey : get_key_from_resource_id unicode_decimal rid proc
                 = (Return (key_of_path p), proc1)).
  { unfold get_key_from_resource_id, pbind, lift. unfold rid.
    rewrite (decode_tokens_encoded unicode_decimal Hne Hp).
    unfold Client_key, pbind, lift. rewrite HC.
    now rewrite (datastore_Key_flatten Hne). }
  exists rid. split; [exact (encode_encodable _ _ Hp Hflat)|]. split.
  - rewrite resolve_unfold by exact Hrid.
    unfold resolve_body, pbind, lift.
    rewrite Hkey, (Key_kind_of_path Hne).
    assert (E : pystr_eqb (leaf_kind p) (leaf_kind p) = true)
      by now apply pystr_eqb_eq.
    rewrite E. cbn [negb]. unfold Client_get, pbind, lift. rewrite HC1.
    reflexivity.
  - intros kind Hkind. rewrite resolve_unfold by exact Hrid.
    unfold resolve_body, pbind, lift.
    rewrite Hkey, (Key_kind_of_path Hne).
    destruct (pystr_eqb (leaf_kind p) kind) eqn:E.
    + apply pystr_eqb_eq in E. congruence.
    + reflexivity.
Qed.

End EndToEnd.

Lemma resolve_encoded_key_witness :
  exists rid,
    get_resource_id_from_key
      (mkKey [TStr (text "Parent"); TStr (text "name");
              TStr (text "Child"); TInt 7] []) = Return rid /\
    fst (get_entity_by_resource_id ascii_digits_only
           (fun _ => Return (Some 5%nat)) (text "Child") rid fresh_process)
    = Return (Some 5%nat).
Proof.
  destruct (@resolve_encoded_key ascii_digits_only nat
              (fun _ => Return (Some 5%nat))
              [(text "Parent", TStr (text "name")); (text "Child", TInt 7)]
              (mkKey [TStr (text "Parent"); TStr (text "name");
                      TStr (text "Child"); TInt 7] [])
              fresh_process eq_refl eq_refl eq_refl) as [rid [H1 [H2 _]]].
  exists rid. split; [exact H1|exact H2].
Defined.

(** * Runs of calls and the singleton *)

Section RunsInvariant.

Variable unicode_decimal : N -> option N.
Variable Entity : Type.
Variable datastore_get : Key -> Outcome (option Entity).

Lemma run_call_preserves_invariant (call : Call) (p : Process) :
  singleton_invariant p ->
  singleton_invariant (run_call unicode_decimal datastore_get call p).
Proof.
  destruct call as [|rid|kind rid]; cbn [run_call].
  - apply Client_preserves_invariant.
  - apply get_key_preserves_invariant.
  - apply get_entity_preserves_invariant.
Qed.

(** X15: Whatever is called and however often, constructions, decodings and
    lookups together build at most one [datastore.Client], and the cell
    holds it from then on. *)
Theorem run_calls_one_client (calls : list Call) (p : Process) :
  singleton_invariant p ->
  singleton_invariant (run_calls unicode_decimal datastore_get calls p) /\
  (clients_created (run_calls unicode_decimal datastore_get calls p) <= 1)%nat.
Proof.
  intros Hp.
  assert (H : singleton_invariant
                (run_calls unicode_decimal datastore_get calls p)).
  { revert p Hp. induction calls as [|call rest IH]; intros p Hp;
      cbn [run_calls]; [exact Hp|].
    apply IH, run_call_preserves_invariant, Hp. }
  split; [exact H|exact (invariant_at_most_one _ H)].
Qed.

End RunsInvariant.

Lemma run_calls_one_client_witness :
  (clients_created
     (run_calls ascii_digits_only (fun _ => Return (@None nat))
        [CallDecode (text "Hg"); CallDecode (text "VXNlckVudGl0eR4fMQ");
         CallClient;
         CallResolve (text "UserEntity") (text "VXNlckVudGl0eR4fMQ")]
        fresh_process) <= 1)%nat.
Proof.
  apply (@run_calls_one_client ascii_digits_only nat (fun _ => Return None)).
  reflexivity.
Defined.

(** * The legacy helper *)

Section LegacyKeys.

Variable from_legacy_urlsafe : pystr -> Outcome Key.

(** X16: A key the legacy helper returns is the key of the key string and of
    the expected kind.  Its errors are not unified: the empty key string
    and a key of another kind raise a plain [ValueError], the second with
    both kinds in its message, and an error of the library decoder passes
    through as it is. *)
Theorem legacy_key_outcome (expected_kind keystr : pystr) :
  (forall key,
     get_entity_key_by_keystr from_legacy_urlsafe expected_kind keystr
     = Return key ->
     keystr <> [] /\ from_legacy_urlsafe keystr = Return key /\
     Key_kind key = Return expected_kind) /\
  (forall c m,
     get_entity_key_by_keystr from_legacy_urlsafe expected_kind keystr
     = Raise c m ->
     (keystr = [] /\ c = ValueError /\ m = Some (_keystr_type_err [])) \/
     (keystr <> [] /\ from_legacy_urlsafe keystr = Raise c m) \/
     (exists key,
        from_legacy_urlsafe keystr = Return key /\
        ((Key_kind key = Raise c m) \/
         (exists kind,
            Key_kind key = Return kind /\ kind <> expected_kind /\
            c = ValueError /\ m = Some (_kind_err expected_kind kind))))).
Proof.
  unfold get_entity_key_by_keystr. destruct keystr as [|x ks].
  - split; [discriminate|]. intros c m H; inversion H; subst. left. auto.
  - destruct (from_legacy_urlsafe (x :: ks)) as [key|c0 m0]; cbn [bind].
    + destruct (Key_kind key) as [kind|c1 m1] eqn:Hk; cbn [bind].
      * destruct (pystr_eqb kind expected_kind) eqn:E; cbn [negb].
        -- apply pystr_eqb_eq in E. subst kind. split; [|discriminate].
           intros k H; inversion H; subst. repeat split; [discriminate|exact Hk].
        -- split; [discriminate|]. intros c m H; inversion H; subst.
           right. right. exists key. split; [reflexivity|]. right.
           exists kind. split; [exact Hk|]. split; [|split; reflexivity].
           intros ->. assert (pystr_eqb expected_kind expected_kind = true)
             by now apply pystr_eqb_eq. congruence.
      * split; [discriminate|]. intros c m H; inversion H; subst.
        right. right. exists key. auto.
    + split; [discriminate|]. intros c m H; inversion H; subst.
      right. left. split; [discriminate|reflexivity].
Qed.

End LegacyKeys.

Lemma legacy_key_outcome_witness :
  Key_kind (mkKey [TStr (text "UserEntity"); TInt 1]
              [mkPathElement (text "UserEntity") (Some (TInt 1))])
  = Return (text "UserEntity").
Proof.
  exact (proj2 (proj2 (proj1
    (@legacy_key_outcome
       (fun _ => Return (mkKey [TStr (text "UserEntity"); TInt 1]
                           [mkPathElement (text "UserEntity") (Some (TInt 1))]))
       (text "UserEntity") (text "k")) _ eq_refl))).
Defined.
